(** * GradCalc: the text-parsing and grade-aggregation core of [Att2GradeCalc.py]

    A shallow embedding of [extract_course_title],
    [extract_assignments_and_grades] and [calculate_overall_grade], together
    with the fragments of Python's [str] and [re], of pandas and of NumPy
    they rest on, and of the web application around them ([allowed_file],
    [sanitize_filename], [extract_text_from_scanned_pdf], [save_to_excel],
    [upload_file] and [download_file]), followed by the vocabulary of the
    specification and the statements proved about the program.

    Conventions of the model.
    - A Python [str] is a [list ascii]: a sequence of 8-bit code points, the
      Latin-1 range of Unicode.  The character classes ([\d], [\s],
      [str.isspace], the line boundaries of [str.splitlines]) are Python's,
      restricted to that range.
    - A Python or NumPy float is an IEEE-754 binary64 value: [spec_float]
      with [prec = 53] and [emax = 1024], each operation rounding to nearest,
      ties to even.
    - A pandas DataFrame is the list of its rows in index order, a float64
      column holding NaN where a value is missing.
    - An operation that can raise returns a [result]; the diagnostic [print]
      calls affect no result and are left out. *)

From Stdlib Require Import List Ascii String ZArith NArith Bool Arith Lia.
From Stdlib Require Import Floats.SpecFloat.
From Stdlib Require Import DecimalString.
Import ListNotations.

(** ** Characters and strings *)

Module Str.

Definition str (s : string) : list ascii := list_ascii_of_string s.

Definition code (c : ascii) : N := N_of_ascii c.

Definition in_range (lo hi : N) (c : ascii) : bool :=
  ((lo <=? code c) && (code c <=? hi))%N.

(** [\d] and [[0-9]]: on the Latin-1 range the only decimal digits are 0-9. *)
Definition is_digit (c : ascii) : bool := in_range 48 57 c.

(** [[A-Z]] and [[a-z]]. *)
Definition is_upper (c : ascii) : bool := in_range 65 90 c.
Definition is_lower (c : ascii) : bool := in_range 97 122 c.

(** [str.isspace] and [\s]: TAB..CR, FS..US, space, NEL and NBSP. *)
Definition is_space (c : ascii) : bool :=
  in_range 9 13 c || in_range 28 32 c || (code c =? 133)%N || (code c =? 160)%N.

(** The line boundaries of [str.splitlines]: LF, VT, FF, CR, FS, GS, RS, NEL. *)
Definition is_linebreak (c : ascii) : bool :=
  in_range 10 13 c || in_range 28 30 c || (code c =? 133)%N.

Definition is_cr (c : ascii) : bool := (code c =? 13)%N.
Definition is_lf (c : ascii) : bool := (code c =? 10)%N.

(** [text.splitlines()].  [cur] is the line being read, reversed; [after_cr]
    records that the previous character was a CR, so that CR LF counts as one
    boundary.  A final line without a boundary is kept; a boundary at the very
    end opens no empty line. *)
Fixpoint splitlines_from (after_cr : bool) (cur : list ascii) (s : list ascii)
  : list (list ascii) :=
  match s with
  | [] => match cur with [] => [] | _ => [rev cur] end
  | c :: s' =>
      if after_cr && is_lf c then splitlines_from false cur s'
      else if is_linebreak c then rev cur :: splitlines_from (is_cr c) [] s'
      else splitlines_from false (c :: cur) s'
  end.

Definition splitlines (s : list ascii) : list (list ascii) :=
  splitlines_from false [] s.

(** [s.lstrip()], [s.rstrip()] and [s.strip()]. *)
Fixpoint lstrip (s : list ascii) : list ascii :=
  match s with
  | c :: s' => if is_space c then lstrip s' else s
  | [] => []
  end.

Definition rstrip (s : list ascii) : list ascii := rev (lstrip (rev s)).

Definition strip (s : list ascii) : list ascii := rstrip (lstrip s).

Definition eq_ascii (a b : ascii) : bool := Ascii.eqb a b.

(** [s.startswith(p)]. *)
Fixpoint startswith (p s : list ascii) : bool :=
  match p, s with
  | [], _ => true
  | a :: p', b :: s' => eq_ascii a b && startswith p' s'
  | _ :: _, [] => false
  end.

(** [p in s]: [p] occurs in [s] as a substring. *)
Fixpoint contains (p s : list ascii) : bool :=
  startswith p s || match s with [] => false | _ :: s' => contains p s' end.

(** [s.replace(old, '')] for a non-empty [old]: the occurrences of [old] are
    removed from left to right, without overlap.  [skip] counts the characters
    of the current occurrence that remain to be dropped. *)
Fixpoint remove_from (old : list ascii) (skip : nat) (s : list ascii) : list ascii :=
  match s with
  | [] => []
  | c :: s' =>
      match skip with
      | S n => remove_from old n s'
      | O => if startswith old s then remove_from old (pred (List.length old)) s'
             else c :: remove_from old 0 s'
      end
  end.

Definition remove_all (old s : list ascii) : list ascii :=
  match old with
  | [] => s
  | _ => remove_from old 0 s
  end.

End Str.

(** ** The fragment of [re] the program uses *)

Module Re.
Import Str.

(** Patterns.  Repetition is only ever applied to a character class in the
    program's patterns ([\d+], [\s*], [[A-Z]{2,}], [\d{3}]), so [Rep] carries
    a class and its bounds; [Opt] is the greedy [(?:...)?]. *)
Inductive regex : Type :=
| Bol                                                   (* ^ *)
| Chr (c : ascii)                                       (* a literal *)
| Cls (p : ascii -> bool)                               (* one of a class *)
| Rep (p : ascii -> bool) (lo : nat) (hi : option nat)  (* class{lo,hi}, greedy *)
| Seq (r1 r2 : regex)
| Opt (r : regex)
| Grp (r : regex).                                      (* ( ... ) *)

Definition may_take (hi : option nat) : bool :=
  match hi with Some O => false | _ => true end.

Definition one_less (hi : option nat) : option nat := option_map pred hi.

Section Matcher.
Variable A : Type.

(** Greedy repetition of a class with backtracking: take a character when the
    class and the upper bound allow it and try the rest; when that fails (or
    no character can be taken), stop here provided the lower bound is met. *)
Fixpoint rep (p : ascii -> bool) (lo : nat) (hi : option nat)
    (i : nat) (s : list ascii) (k : nat -> list ascii -> option A) : option A :=
  let stop := match lo with O => k i s | S _ => None end in
  match s with
  | c :: s' =>
      if p c && may_take hi then
        match rep p (pred lo) (one_less hi) (S i) s' k with
        | Some a => Some a
        | None => stop
        end
      else stop
  | [] => stop
  end.

(** The backtracking matcher, in continuation-passing style: [i] is the
    offset of [s] in the subject, [g] the groups closed so far. *)
Fixpoint run (r : regex) (i : nat) (s : list ascii) (g : list (list ascii))
    (k : nat -> list ascii -> list (list ascii) -> option A) : option A :=
  match r with
  | Bol => if Nat.eqb i 0 then k i s g else None
  | Chr c =>
      match s with
      | x :: s' => if eq_ascii x c then k (S i) s' g else None
      | [] => None
      end
  | Cls p =>
      match s with
      | x :: s' => if p x then k (S i) s' g else None
      | [] => None
      end
  | Rep p lo hi => rep p lo hi i s (fun j s' => k j s' g)
  | Seq r1 r2 => run r1 i s g (fun j s' g' => run r2 j s' g' k)
  | Opt r1 =>
      match run r1 i s g k with
      | Some a => Some a
      | None => k i s g
      end
  | Grp r1 => run r1 i s g (fun j s' g' => k j s' (g' ++ [firstn (j - i) s]))
  end.

End Matcher.

Arguments rep {A} p lo hi i s k.
Arguments run {A} r i s g k.

(** A match object: [group0] is [m.group(0)], [groups] holds [m.group(1)],
    [m.group(2)], ... *)
Record match_obj : Type := MatchObj {
  m_start : nat;
  m_end : nat;
  group0 : list ascii;
  groups : list (list ascii)
}.

Definition group (n : nat) (m : match_obj) : list ascii :=
  match n with
  | O => group0 m
  | S n' => nth n' (groups m) []
  end.

Definition match_at (r : regex) (i : nat) (s : list ascii) : option match_obj :=
  run r i s [] (fun j _ g => Some (MatchObj i j (firstn (j - i) s) g)).

(** [re.match(r, s)]: a match starting at offset 0. *)
Definition re_match (r : regex) (s : list ascii) : option match_obj :=
  match_at r 0 s.

(** [re.search(r, s)]: the match at the least offset that has one. *)
Fixpoint search_from (r : regex) (i : nat) (s : list ascii) : option match_obj :=
  match match_at r i s with
  | Some m => Some m
  | None =>
      match s with
      | [] => None
      | _ :: s' => search_from r (S i) s'
      end
  end.

Definition re_search (r : regex) (s : list ascii) : option match_obj :=
  search_from r 0 s.

(** [re.sub(cls, repl, s)] for a pattern that is a single character class:
    every character of the class is a match of its own. *)
Definition re_sub_cls (p : ascii -> bool) (repl : list ascii) (s : list ascii)
  : list ascii :=
  flat_map (fun c => if p c then repl else [c]) s.

End Re.

(** ** IEEE-754 binary64 arithmetic *)

Module Float.

Definition float : Type := spec_float.

Definition prec : Z := 53.
Definition emax : Z := 1024.

Definition fzero : float := S754_zero false.

Definition fadd (x y : float) : float := SFadd prec emax x y.
Definition fmul (x y : float) : float := SFmul prec emax x y.
Definition fquot (x y : float) : float := SFdiv prec emax x y.

(** [x < y] and [x <= y]; both are false when an operand is NaN. *)
Definition flt (x y : float) : bool := SFltb x y.
Definition fle (x y : float) : bool := SFleb x y.

Definition is_nan (x : float) : bool :=
  match x with S754_nan => true | _ => false end.

Definition is_zero (x : float) : bool :=
  match x with S754_zero _ => true | _ => false end.

(** The float nearest to an integer (ties to even, overflow to infinity). *)
Definition of_Z (n : Z) : float := binary_normalize prec emax n 0 false.

Definition of_N (n : N) : float := of_Z (Z.of_N n).

(** [numpy.rint]: the nearest integer, ties to even.  A finite float with a
    non-negative exponent is an integer already. *)
Definition rint (x : float) : float :=
  match x with
  | S754_finite s m e =>
      match e with
      | Zneg k =>
          let mrs := iter_pos shr_1 k (Build_shr_record (Zpos m) false false) in
          match round_nearest_even (shr_m mrs) (loc_of_shr_record mrs) with
          | Zpos n => binary_round prec emax s n 0
          | _ => S754_zero s
          end
      | _ => x
      end
  | _ => x
  end.

(** [round(x, 2)] on a NumPy float64 scalar, which is what the sums of a
    pandas column and everything computed from them are: the scalar's own
    [__round__] multiplies by [10**2], rounds to the nearest integer and
    divides by [10**2]. *)
Definition round2 (x : float) : float :=
  fquot (rint (fmul x (of_Z 100))) (of_Z 100).

End Float.

(** ** Exceptions *)

Inductive exn : Type := ZeroDivisionError | IndexError.

Inductive result (A : Type) : Type :=
| Ok (a : A)
| Raise (e : exn).

Arguments Ok {A} a.
Arguments Raise {A} e.

Definition bind {A B : Type} (m : result A) (f : A -> result B) : result B :=
  match m with
  | Ok a => f a
  | Raise e => Raise e
  end.

Notation "x <- m ;; k" := (bind m (fun x => k))
  (at level 61, m at next level, right associativity).

(** ** The program *)

Module GradCalc.
Import Str Re Float.

(** *** Data model *)

(** One dictionary appended to [extracted_data] by the parsing loop. *)
Record entry : Type := Entry {
  e_Section : list ascii;
  e_Item : list ascii;
  e_Achieved : float;
  e_Total : float
}.

(** One row of the grades DataFrame (columns Section, Item, Achieved, Total,
    Weight).  A missing weight is NaN, as in a float64 column. *)
Record row : Type := Row {
  Section_ : list ascii;
  Item : list ascii;
  Achieved : float;
  Total : float;
  Weight : float
}.

Definition DataFrame : Type := list row.

(** *** extract_course_title *)

(** [^[A-Z]{2,}-\d{3}-\d{2}] *)
Definition course_re : regex :=
  Seq Bol
  (Seq (Rep is_upper 2 None)
  (Seq (Chr "-")
  (Seq (Rep is_digit 3 (Some 3))
  (Seq (Chr "-")
       (Rep is_digit 2 (Some 2)))))).

(** The class [[A-Za-z0-9\- ]]; [re.sub] removes its complement. *)
Definition title_char (c : ascii) : bool :=
  is_upper c || is_lower c || is_digit c || eq_ascii c "-" || eq_ascii c " ".

Definition unknown_course : list ascii := str "Unknown Course".

Fixpoint first_course_line (lines : list (list ascii)) : list ascii :=
  match lines with
  | [] => unknown_course
  | line :: rest =>
      match re_match course_re line with
      | Some _ => re_sub_cls (fun c => negb (title_char c)) [] (strip line)
      | None => first_course_line rest
      end
  end.

Definition extract_course_title (text : list ascii) : list ascii :=
  first_course_line (splitlines text).

(** *** extract_assignments_and_grades *)

Definition headers : list (list ascii) :=
  [str "Grade tem"; str "Points"; str "Comments"; str "Grades -"].

(** [(\d+)/(\d+)\s*(?:\d+%)?] *)
Definition grade_re : regex :=
  Seq (Grp (Rep is_digit 1 None))
  (Seq (Chr "/")
  (Seq (Grp (Rep is_digit 1 None))
  (Seq (Rep is_space 0 None)
       (Opt (Seq (Rep is_digit 1 None) (Chr "%")))))).

(** The value of a string of decimal digits, most significant first. *)
Definition digit_value (c : ascii) : N := (code c - 48)%N.

Definition decimal (ds : list ascii) : N :=
  fold_left (fun acc c => (10 * acc + digit_value c)%N) ds 0%N.

(** [float(s)] for [s] a group matched by [\d+]: the correctly rounded value. *)
Definition float_of_digits (ds : list ascii) : float := of_N (decimal ds).

Definition all_grades : list ascii := str "All Grades".

Definition is_header (line : list ascii) : bool :=
  existsb (fun header => contains header line) headers.

(** The body of the loop over the lines: the entry appended for [raw], if any. *)
Definition parse_line (raw : list ascii) : option entry :=
  let line := strip raw in
  match line with
  | [] => None
  | _ =>
      if is_header line then None
      else
        match re_search grade_re line with
        | Some grade_pattern =>
            let achieved := float_of_digits (group 1 grade_pattern) in
            let total := float_of_digits (group 2 grade_pattern) in
            let assignment := strip (remove_all (group 0 grade_pattern) line) in
            Some (Entry all_grades assignment achieved total)
        | None => None
        end
  end.

Fixpoint extracted_data (lines : list (list ascii)) : list entry :=
  match lines with
  | [] => []
  | line :: rest =>
      match parse_line line with
      | Some e => e :: extracted_data rest
      | None => extracted_data rest
      end
  end.

Definition default_weight : float := of_Z 100.

(** [pd.DataFrame(extracted_data)] followed by [df['Weight'] = 100.0]. *)
Definition with_weight (w : float) (e : entry) : row :=
  Row (e_Section e) (e_Item e) (e_Achieved e) (e_Total e) w.

Definition frame_of_lines (lines : list (list ascii)) : DataFrame :=
  map (with_weight default_weight) (extracted_data lines).

Definition extract_assignments_and_grades (text : list ascii) : DataFrame :=
  frame_of_lines (splitlines text).

(** *** calculate_overall_grade *)

(** [Series.sum()]: NaN entries are skipped and the rest added up from 0.0 in
    index order.  (NumPy adds a column of eight values or more in blocks;
    that changes the rounding of a sum only when some partial sum is not
    exact, which sums of point totals below 2^53 never are.  The general
    statements below use of the sum only that it is built from [fadd]; the
    worked examples have fewer than eight rows.) *)
Definition series_sum (xs : list float) : float :=
  fold_left fadd (map (fun x => if is_nan x then fzero else x) xs) fzero.

Definition str_eqb (a b : list ascii) : bool :=
  if list_eq_dec ascii_dec a b then true else false.

(** [Series.unique()]: the distinct values in order of first appearance. *)
Fixpoint unique_from (seen : list (list ascii)) (xs : list (list ascii))
  : list (list ascii) :=
  match xs with
  | [] => []
  | x :: rest =>
      if existsb (str_eqb x) seen then unique_from seen rest
      else x :: unique_from (x :: seen) rest
  end.

Definition unique (xs : list (list ascii)) : list (list ascii) := unique_from [] xs.

(** [s.iloc[0]]. *)
Definition iloc0 (xs : list float) : result float :=
  match xs with
  | x :: _ => Ok x
  | [] => Raise IndexError
  end.

(** True division.  A zero divisor raises, as it does for Python's own
    floats (a NumPy scalar would warn and return an infinity or NaN).  The
    guards of the program keep every divisor away from zero, see
    [calculate_overall_grade_returns], so the two readings agree: the value is
    always the IEEE quotient. *)
Definition div (x y : float) : result float :=
  if is_zero y then Raise ZeroDivisionError else Ok (fquot x y).

(** A value of the [section_grades] dictionary. *)
Record grade : Type := Grade {
  percentage : float;
  weight : option float
}.

(** [d[key] = v] on an insertion-ordered dictionary. *)
Fixpoint dict_set (d : list (list ascii * grade)) (key : list ascii) (v : grade)
  : list (list ascii * grade) :=
  match d with
  | [] => [(key, v)]
  | (k, old) :: rest =>
      if str_eqb k key then (k, v) :: rest else (k, old) :: dict_set rest key v
  end.

Definition section_rows (df : DataFrame) (section : list ascii) : DataFrame :=
  filter (fun r => str_eqb (Section_ r) section) df.

Definition section_achieved (df : DataFrame) (section : list ascii) : float :=
  series_sum (map Achieved (section_rows df section)).

Definition section_total (df : DataFrame) (section : list ascii) : float :=
  series_sum (map Total (section_rows df section)).

Definition section_weight (df : DataFrame) (section : list ascii)
  : result (option float) :=
  let weights := map Weight (section_rows df section) in
  if negb (forallb is_nan weights) then w <- iloc0 weights ;; Ok (Some w)
  else Ok None.

(** One turn of the loop over the sections. *)
Definition section_step (df : DataFrame)
    (acc : result (list (list ascii * grade))) (section : list ascii)
  : result (list (list ascii * grade)) :=
  section_grades <- acc ;;
  w <- section_weight df section ;;
  if flt fzero (section_total df section) then
    q <- div (section_achieved df section) (section_total df section) ;;
    Ok (dict_set section_grades section (Grade (fmul q (of_Z 100)) w))
  else Ok section_grades.

Definition section_grades_of (df : DataFrame)
  : result (list (list ascii * grade)) :=
  fold_left (section_step df) (unique (map Section_ df)) (Ok []).

(** The condition guarding the weighted average:
    [any(grade['weight'] is not None for grade in section_grades.values())]. *)
Definition has_weights (section_grades : list (list ascii * grade)) : bool :=
  existsb (fun kv => match weight (snd kv) with Some _ => true | None => false end)
          section_grades.

(** One turn of the loop accumulating [(weighted_sum, total_weight)]. *)
Definition weighted_step (acc : result (float * float)) (kv : list ascii * grade)
  : result (float * float) :=
  st <- acc ;;
  match weight (snd kv) with
  | Some w =>
      q <- div w (of_Z 100) ;;
      Ok (fadd (fst st) (fmul (percentage (snd kv)) q), fadd (snd st) w)
  | None => Ok st
  end.

(** The weighted-average block: [Some v] when it returns [v], [None] when
    control falls through to the simple average. *)
Definition weighted_average (section_grades : list (list ascii * grade))
  : result (option float) :=
  if has_weights section_grades then
    st <- fold_left weighted_step section_grades (Ok (fzero, fzero)) ;;
    let weighted_sum := fst st in
    let total_weight := snd st in
    if flt fzero total_weight then
      q <- div (of_Z 100) total_weight ;;
      Ok (Some (round2 (fmul weighted_sum q)))
    else Ok None
  else Ok None.

(** The fallback: the ratio of the column sums. *)
Definition simple_average (df : DataFrame) : result float :=
  let total_achieved := series_sum (map Achieved df) in
  let total_possible := series_sum (map Total df) in
  if flt fzero total_possible then
    q <- div total_achieved total_possible ;;
    Ok (round2 (fmul q (of_Z 100)))
  else Ok fzero.

Definition calculate_overall_grade (grades_df : DataFrame) : result float :=
  match grades_df with
  | [] => Ok fzero
  | _ =>
      section_grades <- section_grades_of grades_df ;;
      w <- weighted_average section_grades ;;
      match w with
      | Some v => Ok v
      | None => simple_average grades_df
      end
  end.

End GradCalc.

(** ** The web application around the core *)

(** The rest of [Att2GradeCalc.py]: the file-name checks, the accumulation of
    the OCR text over the pages, and the two request handlers.

    What lies outside the program is modelled as follows.
    - An uploaded file is what text extraction makes of it ([pdf]): the text
      [pytesseract.image_to_string] reads on each page, or the message of the
      exception that opening or reading the file raises.
    - The upload folder is a [store]: the paths that exist, each with what
      was written there.  Paths are compared as strings, and writing to the
      folder is taken to succeed.
    - [werkzeug.utils.secure_filename] is a parameter of [upload_file].
    - A response is the template rendered with its arguments, a file sent,
      or a body with a status code; the HTML table of the results page is
      represented by the frame it is made from. *)

Module Web.
Import Str Re Float GradCalc.

Definition UPLOAD_FOLDER : list ascii := str "uploads".

(** The set [{'pdf'}]. *)
Definition ALLOWED_EXTENSIONS : list (list ascii) := [str "pdf"].

(** *** allowed_file *)

(** [c.lower()]: on the Latin-1 range the letters with a lower-case form are
    A-Z, and the accented capitals 192-214 and 216-222; each lies 32 below
    its lower-case form. *)
Definition lower_char (c : ascii) : ascii :=
  if in_range 65 90 c || in_range 192 214 c || in_range 216 222 c
  then ascii_of_N (code c + 32) else c.

Definition lower (s : list ascii) : list ascii := map lower_char s.

(** [s.rsplit(sep, 1)] for a one-character separator: [s] cut at its last
    [sep], or [s] alone when it has none. *)
Fixpoint rsplit1 (sep : ascii) (s : list ascii) : list (list ascii) :=
  match s with
  | [] => [[]]
  | c :: s' =>
      match rsplit1 sep s' with
      | [tail] => if eq_ascii c sep then [[]; tail] else [c :: tail]
      | head :: parts => (c :: head) :: parts
      | [] => [[c]]
      end
  end.

(** [parts[1]]. *)
Definition item1 (parts : list (list ascii)) : result (list ascii) :=
  match parts with
  | _ :: x :: _ => Ok x
  | _ => Raise IndexError
  end.

(** [and] evaluates its right operand only when the left one is true. *)
Definition allowed_file (filename : list ascii) : result bool :=
  if contains (str ".") filename then
    extension <- item1 (rsplit1 "." filename) ;;
    Ok (existsb (str_eqb (lower extension)) ALLOWED_EXTENSIONS)
  else Ok false.

(** *** sanitize_filename *)

(** The class [[A-Za-z0-9_\-]]; [re.sub] removes its complement. *)
Definition filename_char (c : ascii) : bool :=
  is_upper c || is_lower c || is_digit c || eq_ascii c "_" || eq_ascii c "-".

Definition sanitize_filename (filename : list ascii) : list ascii :=
  firstn 255 (re_sub_cls (fun c => negb (filename_char c)) [] filename).

(** *** extract_text_from_scanned_pdf *)

Inductive outcome (A : Type) : Type :=
| Returns (a : A)
| Raises (message : list ascii).

Arguments Returns {A} a.
Arguments Raises {A} message.

Inductive pdf : Type :=
| Pages (texts : list (list ascii))
| Unreadable (message : list ascii).

(** The loop over the pages: [text += image_to_string(img) + "\n"].
    [pdf_document] is what [fitz.open(pdf_path)] finds at the path. *)
Definition extract_text_from_scanned_pdf (pdf_document : pdf)
  : outcome (list ascii) :=
  match pdf_document with
  | Unreadable message => Raises message
  | Pages texts =>
      Returns (fold_left (fun text page => text ++ page ++ ["010"%char]) texts [])
  end.

(** *** The upload folder *)

Inductive content : Type :=
| Upload (body : pdf)
| Workbook (df : DataFrame).

Definition store : Type := list (list ascii * content).

(** [os.path.join(a, b)] on a POSIX system. *)
Definition os_path_join (a b : list ascii) : list ascii :=
  if startswith (str "/") b then b
  else
    match rev a with
    | [] => a ++ b
    | c :: _ => if eq_ascii c "/" then a ++ b else a ++ "/"%char :: b
    end.

Fixpoint read (path : list ascii) (fs : store) : option content :=
  match fs with
  | [] => None
  | (p, c) :: rest => if str_eqb p path then Some c else read path rest
  end.

(** [os.path.exists(path)]. *)
Definition os_path_exists (path : list ascii) (fs : store) : bool :=
  match read path fs with
  | Some _ => true
  | None => false
  end.

(** Writing a file creates it or replaces what was there. *)
Fixpoint save (path : list ascii) (c : content) (fs : store) : store :=
  match fs with
  | [] => [(path, c)]
  | (p, old) :: rest =>
      if str_eqb p path then (p, c) :: rest else (p, old) :: save path c rest
  end.

(** [os.remove(path)]. *)
Definition os_remove (path : list ascii) (fs : store) : store :=
  filter (fun pc => negb (str_eqb (fst pc) path)) fs.

(** *** save_to_excel *)

Definition save_to_excel (grades_df : DataFrame) (excel_path : list ascii)
    (fs : store) : store :=
  save excel_path (Workbook grades_df) fs.

(** *** Formatting *)

(** [str(n)] for a natural number. *)
Definition decimal_digits (n : N) : list ascii :=
  list_ascii_of_string (NilEmpty.string_of_uint (N.to_uint n)).

Definition two_digits (n : N) : list ascii :=
  [ascii_of_N (48 + n / 10); ascii_of_N (48 + n mod 10)].

(** The hundredths in [m * 2^e], to the nearest, ties to even. *)
Definition hundredths (m : positive) (e : Z) : N :=
  match e with
  | Zneg k =>
      let d := (2 ^ Npos k)%N in
      let q := (100 * Npos m / d)%N in
      let r := ((100 * Npos m) mod d)%N in
      match (2 * r ?= d)%N with
      | Lt => q
      | Gt => (q + 1)%N
      | Eq => if N.even q then q else (q + 1)%N
      end
  | Zpos k => (100 * Npos m * 2 ^ Npos k)%N
  | Z0 => (100 * Npos m)%N
  end.

Definition minus_sign (s : bool) : list ascii := if s then str "-" else [].

(** [f"{x:.2f}"]: the decimal with two places nearest to the exact value of
    the float. *)
Definition format_2f (x : float) : list ascii :=
  match x with
  | S754_nan => str "nan"
  | S754_infinity s => minus_sign s ++ str "inf"
  | S754_zero s => minus_sign s ++ str "0.00"
  | S754_finite s m e =>
      let h := hundredths m e in
      minus_sign s ++ decimal_digits (h / 100) ++ "."%char :: two_digits (h mod 100)
  end.

(** *** upload_file *)

(** [str(e)] for the exceptions of the aggregation. *)
Definition exn_message (e : exn) : list ascii :=
  match e with
  | ZeroDivisionError => str "float division by zero"
  | IndexError => str "single positional indexer is out-of-bounds"
  end.

(** The entry of [request.files]: its name and what was uploaded. *)
Record FileStorage : Type := {
  filename : list ascii;
  body : pdf
}.

(** A request to [/]: its method and, for a POST, [request.files.get('file')]. *)
Inductive request : Type :=
| GET
| POST (file : option FileStorage).

Inductive response : Type :=
| upload_html (error : option (list ascii))
| results_html (course_title overall_grade : list ascii)
               (grades_table : DataFrame) (excel_filename : list ascii)
| send_file (c : content)
| status (text : list ascii) (code : nat)
| uncaught (e : exn).

(** [filename[:-4]]. *)
Definition without_last4 (filename : list ascii) : list ascii :=
  firstn (List.length filename - 4) filename.

(** [f'grades_{sanitize_filename(filename[:-4])}.xlsx']. *)
Definition excel_filename_of (filename : list ascii) : list ascii :=
  str "grades_" ++ sanitize_filename (without_last4 filename) ++ str ".xlsx".

(** The body of the [try] statement: what it returns or raises, and the
    folder it leaves.  The document opened at [pdf_path] is the one saved
    there just before, [body file]. *)
Definition process (file : FileStorage) (filename : list ascii) (fs : store)
  : outcome response * store :=
  match extract_text_from_scanned_pdf (body file) with
  | Raises message => (Raises message, fs)
  | Returns text =>
      let course_title := extract_course_title text in
      let grades_df := extract_assignments_and_grades text in
      match grades_df with
      | [] => (Returns (upload_html (Some (str "No grades found in the PDF"))), fs)
      | _ =>
          let excel_filename := excel_filename_of filename in
          let excel_path := os_path_join UPLOAD_FOLDER excel_filename in
          let fs' := save_to_excel grades_df excel_path fs in
          match calculate_overall_grade grades_df with
          | Raise e => (Raises (exn_message e), fs')
          | Ok overall_grade =>
              (Returns (results_html course_title
                                     (format_2f overall_grade ++ str "%")
                                     grades_df excel_filename), fs')
          end
      end
  end.

Section Handlers.

(** [werkzeug.utils.secure_filename]. *)
Variable secure_filename : list ascii -> list ascii.

(** The handler of [/]: its answer and the folder it leaves.  Once the name
    of [file] is not empty, [file] itself is true, so that the test
    [file and allowed_file(file.filename)] is that of [allowed_file]; an
    exception raised outside the [try] statement is not caught. *)

Definition upload_file (req : request) (fs : store) : response * store :=
  match req with
  | POST None => (upload_html (Some (str "No file uploaded")), fs)
  | POST (Some file) =>
      match filename file with
      | [] => (upload_html (Some (str "No file selected")), fs)
      | _ =>
          match allowed_file (filename file) with
          | Raise e => (uncaught e, fs)
          | Ok true =>
              let filename := secure_filename (filename file) in
              let pdf_path := os_path_join UPLOAD_FOLDER filename in
              let fs1 := save pdf_path (Upload (body file)) fs in
              let (tried, fs2) := process file filename fs1 in
              let answer :=
                match tried with
                | Returns page => page
                | Raises message =>
                    upload_html (Some (str "Error processing file: " ++ message))
                end in
              (answer,
               if os_path_exists pdf_path fs2 then os_remove pdf_path fs2 else fs2)
          | Ok false => (upload_html (Some (str "Invalid file type")), fs)
          end
      end
  | GET => (upload_html None, fs)
  end.

End Handlers.

(** *** download_file *)

(** [s.endswith(suffix)]. *)
Definition endswith (suffix s : list ascii) : bool :=
  startswith (rev suffix) (rev s).

Definition download_file (filename : list ascii) (fs : store) : response :=
  if negb (endswith (str ".xlsx") filename) then status (str "Invalid file type") 400
  else
    let file_path := os_path_join UPLOAD_FOLDER filename in
    match read file_path fs with
    | None =>
        status (str "Error: The file " ++ filename ++ str " does not exist.") 404
    | Some c => send_file c
    end.

End Web.

(** ** Vocabulary of the specification *)

Module Spec.
Import Str Re Float GradCalc.

(** *** Texts and lines *)

Definition LF : ascii := ascii_of_nat 10.

(** The text whose lines are [ls], separated by line feeds. *)
Fixpoint join_lines (ls : list (list ascii)) : list ascii :=
  match ls with
  | [] => []
  | [l] => l
  | l :: rest => l ++ LF :: join_lines rest
  end.

(** The gradebook of the specification's worked example. *)
Definition sample_text : list ascii :=
  join_lines [str "MIS-353-01 Fall"; str "Homework 1 18/20";
              str "Grades - Header"; str "Quiz 1 9/10 90%"].

(** Every character of [s] is in the class [p]. *)
Definition all (p : ascii -> bool) (s : list ascii) : Prop :=
  Forall (fun c => p c = true) s.

(** [s] does not begin with a character of the class [p]. *)
Definition stops (p : ascii -> bool) (s : list ascii) : Prop :=
  match s with
  | [] => True
  | c :: _ => p c = false
  end.



(** [p] occurs in [s] as a substring. *)
Definition occurs_in (p s : list ascii) : Prop :=
  exists pre post, s = pre ++ p ++ post.



(** *** Grade tokens *)

(** An integer: a non-empty run of decimal digits. *)
Definition number (d : list ascii) : Prop := d <> [] /\ all is_digit d.


(** [s] contains a substring matching integer-slash-integer. *)
Definition has_token (s : list ascii) : Prop :=
  exists pre d1 d2 rest,
    s = pre ++ d1 ++ "/"%char :: d2 ++ rest /\ number d1 /\ number d2.








(** *** Course codes *)

(** [line] begins with two or more capitals, a hyphen, three digits, a
    hyphen and two digits. *)
Definition course_code (line : list ascii) : Prop :=
  exists letters d3 d2 rest,
    line = letters ++ "-"%char :: d3 ++ "-"%char :: d2 ++ rest
    /\ 2 <= List.length letters /\ all is_upper letters
    /\ List.length d3 = 3 /\ all is_digit d3
    /\ List.length d2 = 2 /\ all is_digit d2.


(** *** Floats *)

Definition fexp64 (x : Z) : Z := fexp prec emax x.

(** What rounding returns: a value of the sign [sx], canonical when finite. *)
Definition rounded (sx : bool) (x : float) : Prop :=
  match x with
  | S754_zero s => s = sx
  | S754_infinity s => s = sx
  | S754_finite s m e => s = sx /\ bounded prec emax m e = true
  | S754_nan => False
  end.

(** A float that carries no minus sign. *)
Definition unsigned (x : float) : Prop :=
  match x with
  | S754_nan => True
  | S754_zero s | S754_infinity s | S754_finite s _ _ => s = false
  end.

(** NaN, or a canonical float that is not negative. *)
Definition plain (x : float) : Prop := x = S754_nan \/ rounded false x.

(** The integer a float stands for, when it stands for one. *)
Definition integer_value (x : float) : option Z :=
  match x with
  | S754_zero _ => Some 0%Z
  | S754_finite s m e =>
      match e with
      | Zneg k =>
          if (Z.pos m mod 2 ^ Z.pos k =? 0)%Z
          then Some (cond_Zopp s (Z.pos m / 2 ^ Z.pos k))
          else None
      | _ => Some (cond_Zopp s (Z.pos m * 2 ^ e))
      end
  | _ => None
  end.

(** 1.0 *)
Definition one : float := S754_finite false 4503599627370496 (-52).



(** *** Records and aggregates *)

(** A record as the parser builds it: the one section and the default weight. *)
Definition record (item : list ascii) (achieved total : float) : row :=
  Row all_grades item achieved total (of_Z 100).

(** What holds of every row the parser builds. *)
Definition parsed_row (r : row) : Prop :=
  Section_ r = all_grades /\ Weight r = default_weight
  /\ rounded false (Achieved r) /\ rounded false (Total r).

(** The sections of a frame whose total is zero. *)
Definition zero_total (df : DataFrame) (section : list ascii) : Prop :=
  is_zero (section_total df section) = true.

Definition achieved_sum (df : DataFrame) : float := series_sum (map Achieved df).
Definition total_sum (df : DataFrame) : float := series_sum (map Total df).

(** The ratio of the column sums as a percentage, before rounding. *)
Definition ratio_percentage (df : DataFrame) : float :=
  fmul (fquot (achieved_sum df) (total_sum df)) (of_Z 100).

(** The unweighted grade: the rounded ratio of the column sums, or 0 when the
    grand total is not positive. *)
Definition unweighted_grade (df : DataFrame) : float :=
  if flt fzero (total_sum df) then round2 (ratio_percentage df) else fzero.








End Spec.

(** ** Vocabulary of the further properties *)

Module Further.
Import Str Re Float GradCalc Web Spec.

(** *** File names *)

(** The extension [pdf], in any mix of upper and lower case. *)
Definition pdf_extension (ext : list ascii) : Prop :=
  exists c1 c2 c3, ext = [c1; c2; c3]
    /\ (c1 = "p" \/ c1 = "P")%char /\ (c2 = "d" \/ c2 = "D")%char
    /\ (c3 = "f" \/ c3 = "F")%char.

(** The characters of a workbook name. *)
Definition spreadsheet_char (c : ascii) : bool := filename_char c || eq_ascii c ".".

(** *** Texts *)

(** [s] neither begins nor ends with white space. *)
Definition trimmed (s : list ascii) : Prop :=
  stops is_space s /\ stops is_space (rev s).

(** The text accumulated over the pages: each page followed by a line feed. *)
Definition text_of_pages (texts : list (list ascii)) : list ascii :=
  flat_map (fun page => page ++ [LF]) texts.

(** A text without a course line. *)
Definition untitled (text : list ascii) : Prop :=
  extract_course_title text = unknown_course.

(** A text in which the parser finds no record. *)
Definition no_records (text : list ascii) : Prop :=
  extract_assignments_and_grades text = [].

(** *** Frames *)

(** The weight of a row is missing. *)
Definition no_weight (r : row) : Prop := is_nan (Weight r) = true.

Definition has_weight (r : row) : bool := negb (is_nan (Weight r)).

(** One section whose first row has no weight and whose second has. *)
Definition first_weight_missing : DataFrame :=
  [Row (str "Homework") (str "Homework 1") (of_Z 8) (of_Z 10) S754_nan;
   Row (str "Homework") (str "Homework 2") (of_Z 9) (of_Z 10) (of_Z 50)].

(** Two sections, 8/10 and 100/100, without weights. *)
Definition unweighted_frame : DataFrame :=
  [Row (str "Homework") (str "Homework 1") (of_Z 8) (of_Z 10) S754_nan;
   Row (str "Exams") (str "Final") (of_Z 100) (of_Z 100) S754_nan].

(** The frame with its labels rewritten by [f]. *)
Definition relabel (f : row -> list ascii) (df : DataFrame) : DataFrame :=
  map (fun r => Row (Section_ r) (f r) (Achieved r) (Total r) (Weight r)) df.

(** *** Requests and the folder *)

(** Where [upload_file] stores the upload and the workbook made from it. *)
Definition pdf_path_of (secure_filename : list ascii -> list ascii)
    (file : FileStorage) : list ascii :=
  os_path_join UPLOAD_FOLDER (secure_filename (filename file)).

Definition excel_path_of (secure_filename : list ascii -> list ascii)
    (file : FileStorage) : list ascii :=
  os_path_join UPLOAD_FOLDER (excel_filename_of (secure_filename (filename file))).

(** The folder [fs'] differs from [fs] at most at the paths [paths]. *)
Definition same_except (paths : list (list ascii)) (fs fs' : store) : Prop :=
  forall q, ~ In q paths -> read q fs' = read q fs.

(** No path of the folder holds an uploaded document. *)
Definition holds_no_upload (fs : store) : Prop :=
  forall q doc, read q fs <> Some (Upload doc).

(** The message an upload is turned away with. *)
Definition rejection (filename : list ascii) : list ascii :=
  match filename with
  | [] => str "No file selected"
  | _ => str "Invalid file type"
  end.

(** A stand-in for [secure_filename] on names that are safe already. *)
Definition keep_name (filename : list ascii) : list ascii := filename.

(** The worked example as a one-page upload. *)
Definition sample_upload : FileStorage :=
  {| filename := str "grades.pdf"; body := Pages [sample_text] |}.

End Further.

Import Str Re Float GradCalc Spec.
Import Web Further.

(** Proof steps used more than once: naming the parts of the hypotheses on
    rounded floats, and showing that a literal is a run of digits. *)
Ltac split_rounded :=
  repeat match goal with
         | H : _ /\ _ |- _ => destruct H
         end; subst.

Ltac digits_number := split; [discriminate|repeat constructor].

(** * The worked example, safety, and grades above 100 *)

(** ** The worked example *)

(** C1: on the four-line sample text the parser returns the two records
    (Homework 1, 18, 20) and (Quiz 1, 9, 10) in that order, the title is
    "MIS-353-01 Fall", and the overall grade of that record set is 90.00. *)
Theorem sample_gradebook :
  extract_assignments_and_grades sample_text
    = [record (str "Homework 1") (of_Z 18) (of_Z 20);
       record (str "Quiz 1") (of_Z 9) (of_Z 10)]
  /\ extract_course_title sample_text = str "MIS-353-01 Fall"
  /\ calculate_overall_grade (extract_assignments_and_grades sample_text)
       = Ok (of_Z 90).
Proof. repeat split; vm_compute; reflexivity. Qed.

(** ** The aggregation never raises *)

Lemma flt_zero_not_zero (x : float) : flt fzero x = true -> is_zero x = false.
Proof. destruct x; simpl; intros H; try reflexivity; discriminate H. Qed.

Lemma is_zero_not_pos (x : float) : is_zero x = true -> flt fzero x = false.
Proof. destruct x; simpl; intros H; try discriminate H; reflexivity. Qed.

Lemma div_guarded (x y : float) : flt fzero y = true -> div x y = Ok (fquot x y).
Proof. intros H. unfold div. rewrite (flt_zero_not_zero _ H). reflexivity. Qed.

Lemma div_by_100 (x : float) : div x (of_Z 100) = Ok (fquot x (of_Z 100)).
Proof. reflexivity. Qed.

Lemma section_weight_returns (df : DataFrame) (section : list ascii) :
  exists w, section_weight df section = Ok w.
Proof.
  unfold section_weight.
  destruct (map Weight (section_rows df section)) as [|w ws].
  - exists None. reflexivity.
  - destruct (negb (forallb is_nan (w :: ws))).
    + exists (Some w). reflexivity.
    + exists None. reflexivity.
Qed.

Lemma section_step_returns (df : DataFrame) (sg : list (list ascii * grade))
    (section : list ascii) :
  exists sg', section_step df (Ok sg) section = Ok sg'.
Proof.
  unfold section_step. simpl.
  destruct (section_weight_returns df section) as [w ->]. simpl.
  destruct (flt fzero (section_total df section)) eqn:Hpos.
  - rewrite (div_guarded _ _ Hpos). simpl. eauto.
  - eauto.
Qed.

Lemma fold_sections_returns (df : DataFrame) (sections : list (list ascii)) :
  forall sg, exists sg', fold_left (section_step df) sections (Ok sg) = Ok sg'.
Proof.
  induction sections as [|s rest IH]; intros sg; cbn [fold_left].
  - eauto.
  - destruct (section_step_returns df sg s) as [sg1 ->]. apply IH.
Qed.

Lemma section_grades_returns (df : DataFrame) :
  exists sg, section_grades_of df = Ok sg.
Proof. apply fold_sections_returns. Qed.

Lemma fold_weighted_returns (sg : list (list ascii * grade)) :
  forall st, exists st', fold_left weighted_step sg (Ok st) = Ok st'.
Proof.
  induction sg as [|kv rest IH]; intros st; cbn [fold_left].
  - eauto.
  - unfold weighted_step at 2. cbn [bind].
    destruct (weight (snd kv)) as [w|].
    + rewrite div_by_100. cbn [bind]. apply IH.
    + apply IH.
Qed.

Lemma weighted_average_returns (sg : list (list ascii * grade)) :
  exists w, weighted_average sg = Ok w.
Proof.
  unfold weighted_average. destruct (has_weights sg); [|eauto].
  destruct (fold_weighted_returns sg (fzero, fzero)) as [st ->]. simpl.
  destruct (flt fzero (snd st)) eqn:Hpos; [|eauto].
  rewrite (div_guarded _ _ Hpos). simpl. eauto.
Qed.

Lemma simple_average_returns (df : DataFrame) :
  exists v, simple_average df = Ok v.
Proof.
  unfold simple_average.
  destruct (flt fzero (series_sum (map Total df))) eqn:Hpos; [|eauto].
  rewrite (div_guarded _ _ Hpos). simpl. eauto.
Qed.

Lemma calculate_overall_grade_returns (df : DataFrame) :
  exists v, calculate_overall_grade df = Ok v.
Proof.
  destruct df as [|r df]; [simpl; eauto|].
  unfold calculate_overall_grade.
  destruct (section_grades_returns (r :: df)) as [sg ->]. simpl.
  destruct (weighted_average_returns sg) as [[v|] ->]; simpl.
  - eauto.
  - apply simple_average_returns.
Qed.

(** When no section has a positive total the dictionary of section grades
    stays as it was. *)
Lemma fold_sections_zero (df : DataFrame) (sections : list (list ascii)) :
  (forall section, zero_total df section) ->
  forall acc, fold_left (section_step df) sections (Ok acc) = Ok acc.
Proof.
  intros Hzero. induction sections as [|s rest IH]; intros acc; cbn [fold_left].
  - reflexivity.
  - unfold section_step at 2. cbn [bind].
    destruct (section_weight_returns df s) as [w ->]. cbn [bind].
    rewrite (is_zero_not_pos _ (Hzero s)). apply IH.
Qed.

(** C7: the aggregator returns a value on every record set; on the empty set
    it returns 0; and on any set whose totals sum to zero, in every section
    and overall, it returns 0 rather than failing on a division. *)
Theorem zero_total_is_defined :
  (forall df, exists v, calculate_overall_grade df = Ok v)
  /\ calculate_overall_grade [] = Ok fzero
  /\ (forall df,
        (forall section, zero_total df section) ->
        is_zero (series_sum (map Total df)) = true ->
        calculate_overall_grade df = Ok fzero).
Proof.
  split; [exact calculate_overall_grade_returns|].
  split; [reflexivity|].
  intros df Hsec Hall.
  destruct df as [|r df]; [reflexivity|].
  unfold calculate_overall_grade, section_grades_of.
  rewrite (fold_sections_zero _ _ Hsec). simpl.
  unfold simple_average. rewrite (is_zero_not_pos _ Hall). reflexivity.
Qed.

Lemma zero_total_is_defined_witness :
  calculate_overall_grade
    [Row (str "Labs") (str "Lab 1") (of_Z 5) (of_Z 0) (of_Z 100);
     Row (str "Exams") (str "Midterm") (of_Z 0) (of_Z 0) (of_Z 100)]
  = Ok fzero.
Proof.
  apply (proj2 (proj2 zero_total_is_defined)).
  - intros section. unfold zero_total, section_total, section_rows. simpl.
    repeat match goal with
           | |- context [str_eqb ?a section] => destruct (str_eqb a section)
           end; reflexivity.
  - reflexivity.
Defined.

(** ** Grades above 100 *)

Lemma str_eqb_refl a : str_eqb a a = true.
Proof. unfold str_eqb. destruct (list_eq_dec ascii_dec a a); [reflexivity|contradiction]. Qed.

(** C9: a single record 22/20 with weight 100, whatever its section and
    item, is graded 110.00; the result is not clamped, so a returned
    percentage can exceed 100. *)
Theorem above_total_not_clamped :
  (forall section item,
     calculate_overall_grade [Row section item (of_Z 22) (of_Z 20) (of_Z 100)]
     = Ok (of_Z 110))
  /\ exists df v, calculate_overall_grade df = Ok v /\ flt (of_Z 100) v = true.
Proof.
  assert (H : forall section item,
             calculate_overall_grade [Row section item (of_Z 22) (of_Z 20) (of_Z 100)]
             = Ok (of_Z 110)).
  { intros section item.
    unfold calculate_overall_grade, section_grades_of, unique.
    cbn [map Section_ unique_from existsb fold_left].
    unfold section_step, section_weight, section_total, section_achieved, section_rows.
    cbn [filter Section_]. rewrite str_eqb_refl. vm_compute. reflexivity. }
  split; [exact H|].
  exists [Row all_grades [] (of_Z 22) (of_Z 20) (of_Z 100)], (of_Z 110).
  split; [apply H|reflexivity].
Qed.

(** * The matcher and the strings *)

(** ** Greedy repetition of a class *)

Section RepLemmas.

Variable A : Type.

Variable p : ascii -> bool.

Lemma rep_inv (s : list ascii) :
  forall (i : nat) (k : nat -> list ascii -> option A) (a : A) lo hi,
  rep p lo hi i s k = Some a ->
  exists n, lo <= n /\ n <= List.length s /\ all p (firstn n s)
            /\ match hi with Some h => n <= h | None => True end
            /\ k (i + n) (skipn n s) = Some a.
Proof.
  induction s as [|c s IH]; intros i k a lo' hi' H; cbn [rep] in H.
  - destruct lo'; [|discriminate]. exists 0. rewrite Nat.add_0_r.
    repeat split; try lia; try constructor. destruct hi'; [lia|exact I]. exact H.
  - assert (Hstop : match lo' with 0 => k i (c :: s) | S _ => None end = Some a ->
       exists n, lo' <= n /\ n <= List.length (c :: s) /\ all p (firstn n (c :: s))
            /\ match hi' with Some h => n <= h | None => True end
            /\ k (i + n) (skipn n (c :: s)) = Some a).
    { intros Hs. destruct lo'; [|discriminate]. exists 0. rewrite Nat.add_0_r.
      repeat split; try constructor; try (simpl; lia). destruct hi'; [lia|exact I]. exact Hs. }
    destruct (p c) eqn:Hc; cbn [andb] in H; [|auto].
    destruct (may_take hi') eqn:Hm; [|auto].
    destruct (rep p (pred lo') (one_less hi') (S i) s k) as [a'|] eqn:Hr; [|auto].
    injection H as ->.
    destruct (IH _ _ _ _ _ Hr) as (n & Hlo & Hlen & Hall & Hhi & Hk).
    exists (S n). repeat split.
    + lia.
    + simpl. lia.
    + cbn [firstn]. constructor; assumption.
    + destruct hi' as [[|h]|]; simpl in *; solve [discriminate | lia | exact I].
    + rewrite Nat.add_succ_r. exact Hk.
Qed.

Lemma rep_greedy_some (a b : list ascii) :
  all p a -> stops p b ->
  forall lo i (k : nat -> list ascii -> option A) r,
  lo <= List.length a ->
  k (i + List.length a) b = Some r ->
  rep p lo None i (a ++ b) k = Some r.
Proof.
  intros Ha Hb. induction Ha as [|c a Hc Ha IH]; intros lo i k r Hlo Hk.
  - simpl in *. rewrite Nat.add_0_r in Hk. assert (lo = 0) by lia. subst lo.
    destruct b as [|c b]; cbn [rep]; [exact Hk|].
    simpl in Hb. rewrite Hb. cbn [andb]. exact Hk.
  - cbn [app rep]. rewrite Hc. cbn [andb may_take one_less option_map].
    rewrite (IH (pred lo) (S i) k r); [reflexivity|simpl in Hlo; lia|].
    simpl in Hk. rewrite Nat.add_succ_r in Hk. exact Hk.
Qed.


Lemma rep_exact (n : nat) :
  forall i s (k : nat -> list ascii -> option A),
  rep p n (Some n) i s k
    = if (n <=? List.length s) && forallb p (firstn n s)
      then k (i + n) (skipn n s) else None.
Proof.
  induction n as [|n IH]; intros i s k.
  - rewrite Nat.add_0_r. destruct s as [|c s]; cbn [rep]; simpl.
    + reflexivity.
    + rewrite andb_false_r. reflexivity.
  - destruct s as [|c s]; cbn [rep]; [reflexivity|].
    cbn [may_take one_less option_map pred List.length firstn forallb skipn].
    rewrite andb_true_r. destruct (p c); cbn [andb].
    + rewrite IH. rewrite Nat.add_succ_r. cbn [Nat.leb Nat.add].
      destruct ((n <=? List.length s) && forallb p (firstn n s)); [|reflexivity].
      destruct (k (S (i + n)) (skipn n s)); reflexivity.
    + rewrite andb_false_r. reflexivity.
Qed.

End RepLemmas.

(** ** Characters and lists *)


Lemma eq_ascii_true a b : eq_ascii a b = true -> a = b.
Proof. apply Ascii.eqb_eq. Qed.

Lemma eq_ascii_refl a : eq_ascii a a = true.
Proof. apply Ascii.eqb_refl. Qed.

Lemma firstn_exact {T} (a b : list T) n :
  n = List.length a -> firstn n (a ++ b) = a.
Proof.
  intros ->. rewrite firstn_app, Nat.sub_diag, firstn_all. simpl. apply app_nil_r.
Qed.

Lemma skipn_exact {T} (a b : list T) n :
  n = List.length a -> skipn n (a ++ b) = b.
Proof.
  intros ->. rewrite skipn_app, Nat.sub_diag, skipn_all. reflexivity.
Qed.


Lemma all_In {p s c} : all p s -> In c s -> p c = true.
Proof. intros H Hin. unfold all in H. rewrite Forall_forall in H. auto. Qed.

Lemma firstn_skipn_eq {T} n (s : list T) : s = firstn n s ++ skipn n s.
Proof. symmetry. apply firstn_skipn. Qed.



(** ** The grade pattern at one offset *)

Lemma run_seq (A : Type) r1 r2 i s g (k : nat -> list ascii -> list (list ascii) -> option A) :
  run (Seq r1 r2) i s g k = run r1 i s g (fun j s' g' => run r2 j s' g' k).
Proof. reflexivity. Qed.




Section GradeMatch.

Variable A : Type.

Variable F : nat -> list (list ascii) -> A.




End GradeMatch.






(** ** Substrings, [strip] and the header test *)

Lemma startswith_spec p : forall s, startswith p s = true <-> exists r, s = p ++ r.
Proof.
  induction p as [|a p IH]; intros s.
  - simpl. split; [intros _; exists s; reflexivity|reflexivity].
  - destruct s as [|b s]; cbn [startswith].
    + split; [discriminate|intros [r Hr]; discriminate Hr].
    + rewrite andb_true_iff, IH. split.
      * intros [Hab [r ->]]. apply eq_ascii_true in Hab. subst b. exists r. reflexivity.
      * intros [r Hr]. injection Hr as -> ->. split; [apply eq_ascii_refl|eauto].
Qed.

Lemma contains_spec p : forall s, contains p s = true <-> occurs_in p s.
Proof.
  induction s as [|c s IH].
  - cbn [contains]. rewrite orb_false_r, startswith_spec. split.
    + intros [r Hr]. exists [], r. exact Hr.
    + intros (pre & post & H). destruct pre; [exists post; exact H|discriminate H].
  - cbn [contains]. rewrite orb_true_iff, startswith_spec, IH. split.
    + intros [[r Hr]|(pre & post & ->)].
      * exists [], r. exact Hr.
      * exists (c :: pre), post. reflexivity.
    + intros (pre & post & H). destruct pre as [|x pre].
      * left. exists post. exact H.
      * right. injection H as -> ->. exists pre, post. reflexivity.
Qed.

Lemma occurs_in_rev p s : occurs_in p s -> occurs_in (rev p) (rev s).
Proof.
  intros (pre & post & ->). exists (rev post), (rev pre).
  rewrite !rev_app_distr, app_assoc. reflexivity.
Qed.

Lemma contains_rev p s : contains (rev p) (rev s) = contains p s.
Proof.
  apply eq_true_iff_eq. rewrite !contains_spec. split.
  - intros H. apply occurs_in_rev in H. rewrite !rev_involutive in H. exact H.
  - apply occurs_in_rev.
Qed.

Lemma contains_lstrip c p s :
  is_space c = false -> contains (c :: p) (lstrip s) = contains (c :: p) s.
Proof.
  intros Hc. induction s as [|x s IH]; [reflexivity|].
  cbn [lstrip]. destruct (is_space x) eqn:Hx; [|reflexivity].
  rewrite IH. cbn [contains startswith].
  destruct (eq_ascii c x) eqn:Hcx; [|reflexivity].
  apply eq_ascii_true in Hcx. congruence.
Qed.

(** A substring that neither begins nor ends with white space survives
    [strip]. *)
Lemma contains_strip p s :
  stops is_space p -> stops is_space (rev p) -> p <> [] ->
  contains p (strip s) = contains p s.
Proof.
  intros Hhead Hlast Hne. unfold strip, rstrip.
  destruct p as [|c p]; [contradiction|]. simpl in Hhead.
  rewrite <- (contains_lstrip c p s Hhead).
  rewrite <- (rev_involutive (c :: p)) at 1. rewrite contains_rev.
  destruct (rev (c :: p)) as [|d q] eqn:Hrev.
  - apply (f_equal (@List.length ascii)) in Hrev. rewrite length_rev in Hrev. discriminate.
  - simpl in Hlast. rewrite (contains_lstrip d q _ Hlast).
    rewrite <- Hrev. apply contains_rev.
Qed.

Lemma is_header_strip line : is_header (strip line) = is_header line.
Proof.
  unfold is_header, headers. cbn [existsb].
  rewrite !contains_strip; try reflexivity; discriminate.
Qed.

Lemma is_header_spec line :
  is_header line = true <-> exists header, In header headers /\ occurs_in header line.
Proof.
  unfold is_header. rewrite existsb_exists. split.
  - intros (h & Hin & Hc). exists h. split; [exact Hin|apply contains_spec; exact Hc].
  - intros (h & Hin & Hc). exists h. split; [exact Hin|apply contains_spec; exact Hc].
Qed.


Lemma parse_line_header line :
  is_header line = true -> parse_line line = None.
Proof.
  intros H. unfold parse_line. rewrite is_header_strip, H.
  destruct (strip line); reflexivity.
Qed.

Lemma extracted_data_app l1 l2 :
  extracted_data (l1 ++ l2) = extracted_data l1 ++ extracted_data l2.
Proof.
  induction l1 as [|l l1 IH]; [reflexivity|].
  cbn [app extracted_data]. rewrite IH. destruct (parse_line l); reflexivity.
Qed.

Lemma frame_of_lines_app l1 l2 :
  frame_of_lines (l1 ++ l2) = frame_of_lines l1 ++ frame_of_lines l2.
Proof. unfold frame_of_lines. rewrite extracted_data_app. apply map_app. Qed.

Lemma frame_of_lines_skip line rest :
  parse_line line = None -> frame_of_lines (line :: rest) = frame_of_lines rest.
Proof. intros H. unfold frame_of_lines. cbn [extracted_data]. rewrite H. reflexivity. Qed.


(** ** The leftmost token of a line *)









(** ** The course pattern *)

Lemma forallb_all p s : forallb p s = true <-> all p s.
Proof. unfold all. rewrite forallb_forall, Forall_forall. reflexivity. Qed.

Lemma course_match line :
  course_code line -> exists m, re_match course_re line = Some m.
Proof.
  intros (letters & d3 & d2 & rest & -> & Hlen & Hup & Hl3 & Hd3 & Hl2 & Hd2).
  unfold re_match, match_at, course_re.
  rewrite run_seq. cbn [run Nat.eqb]. 
  erewrite rep_greedy_some; [eauto|exact Hup|reflexivity|exact Hlen|].
  rewrite eq_ascii_refl, rep_exact.
  rewrite firstn_exact, skipn_exact by (symmetry; exact Hl3).
  replace (3 <=? _) with true
    by (symmetry; apply Nat.leb_le; rewrite length_app, Hl3; lia).
  rewrite (proj2 (forallb_all _ _) Hd3). cbn [andb].
  rewrite eq_ascii_refl, rep_exact.
  rewrite firstn_exact by (symmetry; exact Hl2).
  replace (2 <=? _) with true
    by (symmetry; apply Nat.leb_le; rewrite length_app, Hl2; lia).
  rewrite (proj2 (forallb_all _ _) Hd2). reflexivity.
Qed.

Lemma course_match_inv line m :
  re_match course_re line = Some m -> course_code line.
Proof.
  unfold re_match, match_at, course_re. rewrite run_seq. cbn [run Nat.eqb].
  intros H. apply rep_inv in H. destruct H as (n & Hlo & Hlen & Hup & _ & H).
  destruct (skipn n line) as [|x s1] eqn:Hs1; [discriminate|].
  destruct (eq_ascii x "-") eqn:Hx; [|discriminate].
  apply eq_ascii_true in Hx. subst x.
  rewrite rep_exact in H.
  destruct ((3 <=? List.length s1) && forallb is_digit (firstn 3 s1)) eqn:H3; [|discriminate].
  apply andb_true_iff in H3. destruct H3 as [Hl3 Hd3]. apply Nat.leb_le in Hl3.
  destruct (skipn 3 s1) as [|y s2] eqn:Hs2; [discriminate|].
  destruct (eq_ascii y "-") eqn:Hy; [|discriminate].
  apply eq_ascii_true in Hy. subst y.
  rewrite rep_exact in H.
  destruct ((2 <=? List.length s2) && forallb is_digit (firstn 2 s2)) eqn:H2; [|discriminate].
  apply andb_true_iff in H2. destruct H2 as [Hl2 Hd2]. apply Nat.leb_le in Hl2.
  exists (firstn n line), (firstn 3 s1), (firstn 2 s2), (skipn 2 s2).
  split; [|repeat split].
  - rewrite firstn_skipn, <- Hs2, firstn_skipn, <- Hs1. apply firstn_skipn_eq.
  - rewrite length_firstn. lia.
  - exact Hup.
  - rewrite length_firstn. lia.
  - apply forallb_all. exact Hd3.
  - rewrite length_firstn. lia.
  - apply forallb_all. exact Hd2.
Qed.

Lemma re_sub_cls_filter p s :
  re_sub_cls (fun c => negb (p c)) [] s = filter p s.
Proof.
  unfold re_sub_cls. induction s as [|c s IH]; [reflexivity|].
  cbn [flat_map filter]. rewrite IH. destruct (p c); reflexivity.
Qed.


Lemma first_course_line_none lines :
  Forall (fun l => ~ course_code l) lines -> first_course_line lines = unknown_course.
Proof.
  intros H. induction H as [|l lines Hl H IH]; cbn [first_course_line]; [reflexivity|].
  destruct (re_match course_re l) as [m|] eqn:Hm; [|exact IH].
  exfalso. apply Hl. exact (course_match_inv _ _ Hm).
Qed.

(** ** Deciding tokens; removing the match *)








(** ** Finding the leftmost token by search *)



(** ** A line and its trimmed form *)





Lemma digit_not_space c : is_digit c = true -> is_space c = false.
Proof.
  destruct c as [[] [] [] [] [] [] [] []]; intros H; try reflexivity; discriminate H.
Qed.







(** * Binary64 rounding *)

Section Rounding.
Local Open Scope Z_scope.

Lemma iter_pos_nat {T} (f : T -> T) (n : positive) :
  forall x, iter_pos f n x = Nat.iter (Pos.to_nat n) f x.
Proof.
  induction n as [n IH|n IH|]; intros x; cbn [iter_pos].
  - rewrite !IH. rewrite Pos2Nat.inj_xI.
    replace (S (2 * Pos.to_nat n))%nat with (Pos.to_nat n + (Pos.to_nat n + 1))%nat by lia.
    rewrite !Nat.iter_add. reflexivity.
  - rewrite !IH. rewrite Pos2Nat.inj_xO.
    replace (2 * Pos.to_nat n)%nat with (Pos.to_nat n + Pos.to_nat n)%nat by lia.
    rewrite Nat.iter_add. reflexivity.
  - reflexivity.
Qed.

Lemma shr_1_m mrs : 0 <= shr_m mrs -> shr_m (shr_1 mrs) = shr_m mrs / 2.
Proof.
  destruct mrs as [m r s]. cbn [shr_m]. intros Hm.
  destruct m as [|[p|p|]|p]; cbn [shr_1 shr_m]; try solve [lia | reflexivity].
  - rewrite Pos2Z.inj_xI. apply Z.div_unique with (r := 1); lia.
  - rewrite Pos2Z.inj_xO. apply Z.div_unique with (r := 0); lia.
Qed.

Lemma shr_iter_m (n : nat) :
  forall mrs, 0 <= shr_m mrs ->
  shr_m (Nat.iter n shr_1 mrs) = shr_m mrs / 2 ^ Z.of_nat n.
Proof.
  induction n as [|n IH]; intros mrs Hm.
  - change (Nat.iter 0 shr_1 mrs) with mrs.
    change (Z.of_nat 0) with 0. rewrite Z.pow_0_r, Z.div_1_r. reflexivity.
  - rewrite Nat.iter_succ. rewrite shr_1_m.
    + rewrite IH by assumption. rewrite Z.div_div by lia.
      rewrite Nat2Z.inj_succ, Z.pow_succ_r by lia. f_equal. lia.
    + rewrite IH by assumption. apply Z.div_pos; lia.
Qed.

Lemma shr_m_shift mrs e k :
  0 <= shr_m mrs -> 0 <= k ->
  shr_m (fst (shr mrs e k)) = shr_m mrs / 2 ^ k /\ snd (shr mrs e k) = e + k.
Proof.
  intros Hm Hk. destruct k as [|p|p]; cbn [shr fst snd]; try lia.
  - rewrite Z.pow_0_r, Z.div_1_r. lia.
  - rewrite iter_pos_nat, shr_iter_m by assumption.
    rewrite positive_nat_Z. lia.
Qed.

Lemma shr_m_noshift mrs e k : k <= 0 -> shr mrs e k = (mrs, e).
Proof. intros Hk. destruct k; cbn [shr]; try reflexivity; lia. Qed.

Lemma digits2_size p : digits2_pos p = Pos.size p.
Proof. induction p; cbn [digits2_pos Pos.size]; congruence. Qed.

Lemma digits_bounds p :
  2 ^ (Z.pos (digits2_pos p) - 1) <= Z.pos p < 2 ^ Z.pos (digits2_pos p).
Proof.
  rewrite digits2_size. split.
  - pose proof (Pos.size_le p) as H.
    apply Pos2Z.pos_le_pos in H. rewrite Pos2Z.inj_pow, (Pos2Z.inj_xO p) in H.
    replace (Z.pos (Pos.size p)) with (Z.succ (Z.pos (Pos.size p) - 1)) in H by lia.
    rewrite Z.pow_succ_r in H by lia. lia.
  - pose proof (Pos.size_gt p) as H.
    apply Pos2Z.pos_lt_pos in H. rewrite Pos2Z.inj_pow in H. exact H.
Qed.

Lemma Zdigits2_nonneg m : 0 <= Zdigits2 m.
Proof. destruct m; simpl; lia. Qed.

Lemma Zdigits2_upper m : 0 <= m -> m < 2 ^ Zdigits2 m.
Proof.
  intros Hm. destruct m as [|p|p]; try lia.
  - simpl. lia.
  - apply digits_bounds.
Qed.

Lemma Zdigits2_lower m : 0 < m -> 2 ^ (Zdigits2 m - 1) <= m.
Proof. intros Hm. destruct m as [|p|p]; try lia. apply digits_bounds. Qed.

Lemma Zdigits2_le m d : 0 <= m -> 0 <= d -> m < 2 ^ d -> Zdigits2 m <= d.
Proof.
  intros Hm Hd Hlt. destruct (Z.eq_dec m 0) as [->|Hne]; [simpl; lia|].
  pose proof (Zdigits2_lower m ltac:(lia)) as Hlo.
  destruct (Z_lt_le_dec d (Zdigits2 m)) as [Hgt|]; [|lia].
  assert (2 ^ d <= 2 ^ (Zdigits2 m - 1)) by (apply Z.pow_le_mono_r; lia). lia.
Qed.

Lemma Zdigits2_ge m d : 2 ^ (d - 1) <= m -> 0 < d -> d <= Zdigits2 m.
Proof.
  intros Hlo Hd.
  assert (0 < m) by (pose proof (Z.pow_pos_nonneg 2 (d - 1)); lia).
  pose proof (Zdigits2_upper m ltac:(lia)) as Hhi.
  pose proof (Zdigits2_nonneg m).
  destruct (Z_lt_le_dec (Zdigits2 m) d) as [Hlt|]; [|lia].
  assert (2 ^ Zdigits2 m <= 2 ^ (d - 1)) by (apply Z.pow_le_mono_r; lia). lia.
Qed.

Lemma fexp64_eq x : fexp64 x = Z.max (x - 53) (-1074).
Proof. reflexivity. Qed.

Lemma shr_record_of_loc_m m l : shr_m (shr_record_of_loc m l) = m.
Proof. destruct l as [|[]]; reflexivity. Qed.

Lemma shr_fexp_spec m e l :
  0 <= m -> e <= fexp64 (Zdigits2 m + e) ->
  shr_m (fst (shr_fexp prec emax m e l)) = m / 2 ^ (fexp64 (Zdigits2 m + e) - e)
  /\ snd (shr_fexp prec emax m e l) = fexp64 (Zdigits2 m + e).
Proof.
  intros Hm He. unfold shr_fexp. fold (fexp64 (Zdigits2 m + e)).
  destruct (shr_m_shift (shr_record_of_loc m l) e (fexp64 (Zdigits2 m + e) - e)) as [H1 H2].
  - rewrite shr_record_of_loc_m. exact Hm.
  - lia.
  - rewrite H1, H2, shr_record_of_loc_m. split; [reflexivity|lia].
Qed.

Lemma round_nearest_even_cases m l :
  round_nearest_even m l = m \/ round_nearest_even m l = m + 1.
Proof.
  destruct l as [|[]]; cbn [round_nearest_even]; auto.
  destruct (Z.even m); auto.
Qed.

Lemma pow2_53 : 2 ^ 53 = 9007199254740992. Proof. reflexivity. Qed.

Lemma pow2_52 : 2 ^ 52 = 4503599627370496. Proof. reflexivity. Qed.

Lemma round_stage2 sx m1 e1 :
  0 <= m1 <= 9007199254740992 -> -1074 <= e1 ->
  (e1 = -1074 \/ 4503599627370496 <= m1) ->
  rounded sx
    (let '(mrs, e2) := shr_fexp prec emax m1 e1 loc_Exact in
     match shr_m mrs with
     | Z0 => S754_zero sx
     | Zpos m => if e2 <=? emax - prec then S754_finite sx m e2 else S754_infinity sx
     | Zneg _ => S754_nan
     end).
Proof.
  intros Hm He Hnorm.
  destruct (Z.eq_dec m1 9007199254740992) as [->|Htop].
  { unfold shr_fexp. cbn [Zdigits2 digits2_pos Pos.succ].
    fold (fexp64 (54 + e1)). rewrite fexp64_eq.
    replace (Z.max (54 + e1 - 53) (-1074) - e1) with 1 by lia.
    cbn [shr shr_record_of_loc iter_pos shr_1 shr_m].
    destruct (e1 + 1 <=? emax - prec) eqn:Hle; cbn [rounded]; [|reflexivity].
    split; [reflexivity|]. unfold bounded, canonical_mantissa.
    cbn [digits2_pos Pos.succ]. fold (fexp64 (53 + (e1 + 1))). rewrite fexp64_eq, Hle.
    rewrite andb_true_r. apply Z.eqb_eq. lia. }
  destruct (Z.eq_dec m1 0) as [->|Hz].
  { unfold shr_fexp. cbn [Zdigits2]. fold (fexp64 (0 + e1)). rewrite fexp64_eq.
    rewrite shr_m_noshift by lia. cbn [shr_record_of_loc shr_m rounded]. reflexivity. }
  assert (Hd : Zdigits2 m1 <= 53).
  { apply Zdigits2_le; lia. }
  assert (Hd' : e1 = -1074 \/ Zdigits2 m1 = 53).
  { destruct Hnorm as [|Hn]; [auto|right].
    assert (53 <= Zdigits2 m1); [|lia].
    apply Zdigits2_ge; [|lia]. change (2 ^ (53 - 1)) with 4503599627370496. exact Hn. }
  unfold shr_fexp. fold (fexp64 (Zdigits2 m1 + e1)).
  assert (Hk : fexp64 (Zdigits2 m1 + e1) = e1) by (rewrite fexp64_eq; lia).
  rewrite shr_m_noshift by lia. cbn [shr_record_of_loc shr_m].
  destruct m1 as [|p|p]; try lia.
  destruct (e1 <=? emax - prec) eqn:Hle; cbn [rounded]; [|reflexivity].
  split; [reflexivity|]. unfold bounded, canonical_mantissa.
  rewrite Hle, andb_true_r. apply Z.eqb_eq. exact Hk.
Qed.

(** Rounding a non-negative mantissa that is long enough for its exponent
    gives a canonical float of the requested sign. *)
Lemma binary_round_aux_rounded sx mx ex lx :
  0 <= mx -> ex <= fexp64 (Zdigits2 mx + ex) ->
  rounded sx (binary_round_aux prec emax sx mx ex lx).
Proof.
  intros Hm He. unfold binary_round_aux.
  destruct (shr_fexp_spec mx ex lx Hm He) as [Hm1 He1].
  destruct (shr_fexp prec emax mx ex lx) as [mrs e1]. cbn [fst snd] in Hm1, He1.
  set (k := fexp64 (Zdigits2 mx + ex) - ex) in *.
  assert (Hk : 0 <= k) by (unfold k; lia).
  assert (Hpow : 0 < 2 ^ k) by (apply Z.pow_pos_nonneg; lia).
  pose proof (Zdigits2_nonneg mx) as Hd0.
  assert (Hlow : -1074 <= e1) by (rewrite He1, fexp64_eq; lia).
  assert (H0 : 0 <= shr_m mrs) by (rewrite Hm1; apply Z.div_pos; lia).
  assert (Hup : shr_m mrs < 9007199254740992).
  { rewrite Hm1. apply Z.div_lt_upper_bound; [exact Hpow|].
    rewrite <- pow2_53, <- Z.pow_add_r by lia.
    apply Z.lt_le_trans with (2 ^ Zdigits2 mx); [apply Zdigits2_upper; exact Hm|].
    apply Z.pow_le_mono_r; [lia|]. unfold k. rewrite fexp64_eq. lia. }
  assert (Hnorm : e1 = -1074 \/ 4503599627370496 <= shr_m mrs).
  { destruct (Z.eq_dec e1 (-1074)) as [|Hne]; [auto|right].
    assert (He1' : e1 = Zdigits2 mx + ex - 53) by (rewrite He1, fexp64_eq in *; lia).
    assert (Hpos : 0 < mx).
    { destruct (Z.eq_dec mx 0) as [->|]; [|lia]. cbn [Zdigits2] in *.
      rewrite fexp64_eq in He. lia. }
    rewrite Hm1. apply Z.div_le_lower_bound; [exact Hpow|].
    rewrite <- pow2_52, <- Z.pow_add_r by lia.
    replace (k + 52) with (Zdigits2 mx - 1) by (unfold k; lia).
    apply Zdigits2_lower. exact Hpos. }
  apply round_stage2; [|exact Hlow|].
  - destruct (round_nearest_even_cases (shr_m mrs) (loc_of_shr_record mrs)) as [->| ->]; lia.
  - destruct Hnorm as [|Hn]; [auto|right].
    destruct (round_nearest_even_cases (shr_m mrs) (loc_of_shr_record mrs)) as [->| ->]; lia.
Qed.

Lemma digits2_shift m (d : positive) :
  Z.pos (digits2_pos (Pos.iter xO m d)) = Z.pos (digits2_pos m) + Z.pos d.
Proof.
  induction d as [|d IH] using Pos.peano_ind.
  - cbn [Pos.iter digits2_pos]. lia.
  - rewrite Pos.iter_succ. cbn [digits2_pos]. lia.
Qed.

Lemma binary_round_rounded sx mx ex :
  rounded sx (binary_round prec emax sx mx ex).
Proof.
  unfold binary_round, shl_align.
  fold (fexp64 (Z.pos (digits2_pos mx) + ex)).
  destruct (fexp64 (Z.pos (digits2_pos mx) + ex) - ex) as [|k|k] eqn:Hk;
    apply binary_round_aux_rounded; cbn [Zdigits2]; try lia.
  rewrite digits2_shift, !fexp64_eq in *. lia.
Qed.

Lemma of_Z_rounded n : 0 <= n -> rounded false (of_Z n).
Proof.
  intros Hn. unfold of_Z, binary_normalize. destruct n as [|p|p]; try lia.
  - reflexivity.
  - apply binary_round_rounded.
Qed.

Lemma of_N_rounded n : rounded false (of_N n).
Proof. apply of_Z_rounded. lia. Qed.

Lemma rounded_nonneg x : rounded false x -> fle fzero x = true.
Proof.
  destruct x as [s|s| |s m e]; cbn [rounded]; try contradiction.
  - intros ->. reflexivity.
  - intros ->. reflexivity.
  - intros [-> _]. reflexivity.
Qed.

Lemma fadd_rounded x y :
  rounded false x -> rounded false y -> rounded false (fadd x y).
Proof.
  destruct x as [sx|sx| |sx mx ex], y as [sy|sy| |sy my ey]; cbn [rounded];
    try contradiction; intros Hx Hy; split_rounded;
    try (cbn [fadd SFadd rounded]; auto; fail).
  unfold fadd, SFadd. cbn [cond_Zopp]. cbn [Z.add binary_normalize].
  apply binary_round_rounded.
Qed.

Lemma fold_fadd_rounded ys :
  Forall (rounded false) ys ->
  forall acc, rounded false acc -> rounded false (fold_left fadd ys acc).
Proof.
  intros H. induction H as [|y ys Hy H IH]; intros acc Hacc; cbn [fold_left].
  - exact Hacc.
  - apply IH. apply fadd_rounded; assumption.
Qed.

Lemma series_sum_rounded xs :
  Forall (rounded false) xs -> rounded false (series_sum xs).
Proof.
  intros H. unfold series_sum. apply fold_fadd_rounded; [|reflexivity].
  induction H as [|x xs Hx H IH]; cbn [map]; constructor; [|exact IH].
  destruct x; cbn [is_nan]; try exact Hx. destruct Hx.
Qed.

Lemma binary_round_aux_sign sx mx ex lx :
  match binary_round_aux prec emax sx mx ex lx with
  | S754_nan => True
  | S754_zero s | S754_infinity s | S754_finite s _ _ => s = sx
  end.
Proof.
  unfold binary_round_aux.
  destruct (shr_fexp prec emax mx ex lx) as [mrs e1].
  destruct (shr_fexp prec emax _ e1 loc_Exact) as [mrs2 e2].
  destruct (shr_m mrs2); [reflexivity| |exact I].
  destruct (e2 <=? emax - prec); reflexivity.
Qed.

Lemma fquot_unsigned x y :
  rounded false x -> rounded false y -> unsigned (fquot x y).
Proof.
  destruct x as [sx|sx| |sx mx ex], y as [sy|sy| |sy my ey]; cbn [rounded];
    try contradiction; intros Hx Hy; split_rounded;
    try (cbn [fquot SFdiv unsigned]; auto; fail).
  unfold fquot, SFdiv.
  destruct (SFdiv_core_binary prec emax (Z.pos mx) ex (Z.pos my) ey) as [[mz ez] lz].
  pose proof (binary_round_aux_sign (xorb false false) mz ez lz) as H.
  destruct (binary_round_aux prec emax (xorb false false) mz ez lz); exact H.
Qed.

Lemma hundred_eq : of_Z 100 = S754_finite false 7036874417766400 (-46).
Proof. reflexivity. Qed.

Lemma fmul_hundred_plain q : unsigned q -> plain (fmul q (of_Z 100)).
Proof.
  rewrite hundred_eq. destruct q as [s|s| |s m e]; cbn [unsigned]; intros Hq.
  - subst. right. reflexivity.
  - subst. right. reflexivity.
  - left. reflexivity.
  - subst. right. unfold fmul, SFmul. cbn [xorb].
    apply binary_round_aux_rounded; [lia|].
    rewrite fexp64_eq. cbn [Zdigits2].
    assert (Z.pos (digits2_pos m) + 52 <= Z.pos (digits2_pos (m * 7036874417766400))).
    { pose proof (digits_bounds m) as [Hlo _].
      replace (Z.pos (digits2_pos m) + 52) with
        (Zdigits2 (Z.pos m * 7036874417766400) - (Zdigits2 (Z.pos m * 7036874417766400) - (Z.pos (digits2_pos m) + 52))) by lia.
      assert (Hge : Z.pos (digits2_pos m) + 52 <= Zdigits2 (Z.pos m * 7036874417766400)).
      { apply Zdigits2_ge; [|lia].
        replace (Z.pos (digits2_pos m) + 52 - 1) with ((Z.pos (digits2_pos m) - 1) + 52) by lia.
        rewrite Z.pow_add_r by lia. rewrite pow2_52. nia. }
      cbn [Zdigits2 Z.mul] in *. lia. }
    lia.
Qed.

Lemma shr_fexp_canonical m e :
  fexp64 (Z.pos (digits2_pos m) + e) = e ->
  shr_fexp prec emax (Z.pos m) e loc_Exact
    = (Build_shr_record (Z.pos m) false false, e).
Proof.
  intros Hc. unfold shr_fexp. cbn [Zdigits2].
  fold (fexp64 (Z.pos (digits2_pos m) + e)). rewrite Hc, Z.sub_diag. reflexivity.
Qed.

Lemma shr_fexp_times_one m e :
  fexp64 (Z.pos (digits2_pos m) + e) = e ->
  shr_fexp prec emax (Z.pos (Pos.iter xO m 52)) (e + -52) loc_Exact
    = (Build_shr_record (Z.pos m) false false, e).
Proof.
  intros Hc. unfold shr_fexp. cbn [Zdigits2]. rewrite digits2_shift.
  fold (fexp64 (Z.pos (digits2_pos m) + 52 + (e + -52))).
  replace (Z.pos (digits2_pos m) + 52 + (e + -52)) with (Z.pos (digits2_pos m) + e) by lia.
  rewrite Hc. replace (e - (e + -52)) with 52 by lia.
  cbn [shr shr_record_of_loc]. cbn [Pos.iter iter_pos shr_1 orb].
  f_equal. lia.
Qed.

Lemma fmul_one x : plain x -> fmul x one = x.
Proof.
  intros [->|Hx]; [reflexivity|].
  destruct x as [s|s| |s m e]; cbn [rounded] in Hx; try contradiction.
  - subst. reflexivity.
  - subst. reflexivity.
  - destruct Hx as [-> Hb]. unfold bounded, canonical_mantissa in Hb.
    apply andb_true_iff in Hb. destruct Hb as [Hc Hle]. apply Z.eqb_eq in Hc.
    fold (fexp64 (Z.pos (digits2_pos m) + e)) in Hc.
    unfold fmul, one, SFmul, binary_round_aux. cbn [xorb].
    rewrite Pos.mul_comm.
    change (4503599627370496 * m)%positive with (Pos.iter xO m 52).
    rewrite (shr_fexp_times_one m e Hc).
    cbn [shr_m loc_of_shr_record round_nearest_even].
    rewrite (shr_fexp_canonical m e Hc). cbn [shr_m]. rewrite Hle. reflexivity.
Qed.

Lemma fadd_zero x : plain x -> fadd fzero x = x.
Proof.
  intros [->|Hx]; [reflexivity|].
  destruct x as [s|s| |s m e]; cbn [rounded] in Hx; try contradiction.
  - subst. reflexivity.
  - subst. reflexivity.
  - reflexivity.
Qed.

Lemma binary_round_aux_canonical s m e :
  fexp64 (Z.pos (digits2_pos m) + e) = e -> e <= 971 ->
  binary_round_aux prec emax s (Z.pos m) e loc_Exact = S754_finite s m e.
Proof.
  intros Hc He. unfold binary_round_aux.
  rewrite (shr_fexp_canonical m e Hc).
  cbn [shr_m loc_of_shr_record round_nearest_even].
  rewrite (shr_fexp_canonical m e Hc). cbn [shr_m].
  replace (e <=? emax - prec) with true by (symmetry; apply Z.leb_le; exact He).
  reflexivity.
Qed.

Lemma iter_xO_value p k : Z.pos (Pos.iter xO p k) = Z.pos p * 2 ^ Z.pos k.
Proof.
  induction k as [|k IH] using Pos.peano_ind.
  - cbn [Pos.iter]. rewrite Pos2Z.inj_xO. change (2 ^ 1) with 2. lia.
  - rewrite Pos.iter_succ, Pos2Z.inj_xO, IH, Pos2Z.inj_succ, Z.pow_succ_r by lia. lia.
Qed.

(** Below 2^53 the conversion of an integer is exact. *)
Lemma of_N_exact n :
  (n < 9007199254740992)%N -> integer_value (of_N n) = Some (Z.of_N n).
Proof.
  intros Hn. destruct n as [|p]; [reflexivity|].
  unfold of_N, of_Z. cbn [Z.of_N binary_normalize].
  assert (Hd : Z.pos (digits2_pos p) <= 53).
  { change (Z.pos (digits2_pos p)) with (Zdigits2 (Z.pos p)). apply Zdigits2_le; lia. }
  unfold binary_round, shl_align.
  fold (fexp64 (Z.pos (digits2_pos p) + 0)). rewrite fexp64_eq.
  replace (Z.max (Z.pos (digits2_pos p) + 0 - 53) (-1074) - 0)
    with (Z.pos (digits2_pos p) - 53) by lia.
  replace (Z.max (Z.pos (digits2_pos p) + 0 - 53) (-1074))
    with (Z.pos (digits2_pos p) - 53) by lia.
  destruct (Z.pos (digits2_pos p) - 53) as [|k|k] eqn:Hk; try lia.
  - rewrite binary_round_aux_canonical; [|rewrite fexp64_eq; lia|lia].
    cbn [integer_value cond_Zopp]. rewrite Z.pow_0_r, Z.mul_1_r. reflexivity.
  - rewrite binary_round_aux_canonical;
      [|rewrite digits2_shift, fexp64_eq; lia|lia].
    cbn [integer_value cond_Zopp]. rewrite iter_xO_value.
    rewrite Z.mod_mul, Z.div_mul by (apply Z.pow_nonzero; lia). reflexivity.
Qed.

End Rounding.

(** * Aggregating particular frames *)

(** ** Frames built by the parser *)

Lemma parse_line_values line e :
  parse_line line = Some e ->
  e_Section e = all_grades /\ rounded false (e_Achieved e) /\ rounded false (e_Total e).
Proof.
  unfold parse_line. destruct (strip line); [discriminate|].
  destruct (is_header _); [discriminate|].
  destruct (re_search grade_re _); [|discriminate].
  intros H. injection H as <-. cbn [e_Section e_Achieved e_Total].
  repeat split; apply of_N_rounded.
Qed.

Lemma frame_rows_parsed lines : Forall parsed_row (frame_of_lines lines).
Proof.
  unfold frame_of_lines. induction lines as [|l lines IH]; cbn [extracted_data map].
  - constructor.
  - destruct (parse_line l) as [e|] eqn:He; [|exact IH].
    cbn [map]. constructor; [|exact IH].
    destruct (parse_line_values _ _ He) as (Hs & Ha & Ht).
    unfold parsed_row, with_weight. cbn [Section_ Weight Achieved Total]. auto.
Qed.

Lemma unique_from_same sec xs :
  Forall (fun x => x = sec) xs -> unique_from [sec] xs = [].
Proof.
  intros H. induction H as [|x xs -> H IH]; [reflexivity|].
  cbn [unique_from existsb]. rewrite str_eqb_refl. exact IH.
Qed.

Lemma section_rows_all df sec :
  Forall (fun r => Section_ r = sec) df -> section_rows df sec = df.
Proof.
  intros H. unfold section_rows. induction H as [|r df Hr H IH]; [reflexivity|].
  cbn [filter]. rewrite Hr, str_eqb_refl, IH. reflexivity.
Qed.

Lemma one_value : fquot (of_Z 100) (of_Z 100) = one.
Proof. reflexivity. Qed.

Lemma one_value' : fquot (of_Z 100) (fadd fzero (of_Z 100)) = one.
Proof. reflexivity. Qed.

Lemma parsed_sums_rounded df :
  Forall parsed_row df ->
  rounded false (achieved_sum df) /\ rounded false (total_sum df).
Proof.
  intros Hrows.
  split; apply series_sum_rounded; rewrite Forall_map;
    (eapply Forall_impl; [|exact Hrows]); intros r (_ & _ & Ha & Ht); assumption.
Qed.

Lemma parsed_percentage_plain df :
  Forall parsed_row df -> plain (ratio_percentage df).
Proof.
  intros Hrows. apply fmul_hundred_plain.
  apply fquot_unsigned; apply parsed_sums_rounded; exact Hrows.
Qed.

Lemma parsed_sections r rest :
  Forall parsed_row (r :: rest) ->
  unique (map Section_ (r :: rest)) = [all_grades]
  /\ section_rows (r :: rest) all_grades = r :: rest.
Proof.
  intros Hrows.
  assert (Hsec : Forall (fun r => Section_ r = all_grades) (r :: rest)).
  { eapply Forall_impl; [|exact Hrows]. intros x (Hs & _). exact Hs. }
  split; [|apply section_rows_all; exact Hsec].
  inversion Hsec as [|x xs Hx Hxs]; subst.
  unfold unique. cbn [map unique_from existsb]. rewrite Hx.
  rewrite unique_from_same; [reflexivity|]. rewrite Forall_map. exact Hxs.
Qed.

Lemma parsed_section_weight r rest :
  Forall parsed_row (r :: rest) ->
  section_weight (r :: rest) all_grades = Ok (Some default_weight).
Proof.
  intros Hrows. unfold section_weight.
  rewrite (proj2 (parsed_sections r rest Hrows)). cbn [map forallb].
  inversion Hrows as [|x xs (_ & Hw & _) _]; subst.
  rewrite Hw. reflexivity.
Qed.

Lemma parsed_section_grades r rest :
  Forall parsed_row (r :: rest) ->
  section_grades_of (r :: rest)
  = Ok (if flt fzero (total_sum (r :: rest))
        then [(all_grades, Grade (ratio_percentage (r :: rest)) (Some default_weight))]
        else []).
Proof.
  intros Hrows. unfold section_grades_of.
  rewrite (proj1 (parsed_sections r rest Hrows)). cbn [fold_left].
  unfold section_step. cbn [bind].
  rewrite (parsed_section_weight r rest Hrows). cbn [bind].
  unfold section_total, section_achieved.
  rewrite (proj2 (parsed_sections r rest Hrows)).
  fold (total_sum (r :: rest)). fold (achieved_sum (r :: rest)).
  destruct (flt fzero (total_sum (r :: rest))) eqn:Hpos; [|reflexivity].
  rewrite (div_guarded _ _ Hpos). reflexivity.
Qed.

(** With the one section and the weight 100 the weighted average is the
    section's percentage, rounded. *)
Lemma weighted_single p :
  plain p ->
  weighted_average [(all_grades, Grade p (Some default_weight))]
  = Ok (Some (round2 p)).
Proof.
  intros Hp. unfold weighted_average. cbn [has_weights existsb snd weight fold_left].
  unfold weighted_step. cbn [bind fst snd weight percentage].
  unfold default_weight. rewrite div_by_100. cbn [bind fst snd].
  rewrite one_value.
  replace (flt fzero (fadd fzero (of_Z 100))) with true by reflexivity.
  rewrite div_guarded by reflexivity. cbn [bind]. rewrite one_value'.
  rewrite (fmul_one _ Hp), (fadd_zero _ Hp), (fmul_one _ Hp). reflexivity.
Qed.

Lemma parsed_grade df :
  Forall parsed_row df ->
  calculate_overall_grade df = Ok (unweighted_grade df)
  /\ (flt fzero (total_sum df) = true ->
      exists sg, section_grades_of df = Ok sg /\ has_weights sg = true
                 /\ weighted_average sg = Ok (Some (unweighted_grade df)))
  /\ (flt fzero (total_sum df) = false ->
      forall sg, section_grades_of df = Ok sg -> has_weights sg = false).
Proof.
  intros Hrows. unfold unweighted_grade.
  fold (achieved_sum df). fold (total_sum df). fold (ratio_percentage df).
  destruct df as [|r rest].
  { split; [reflexivity|]. split; [intros H; discriminate H|].
    intros _ sg Hsg. injection Hsg as <-. reflexivity. }
  pose proof (parsed_section_grades r rest Hrows) as Hsg.
  pose proof (parsed_percentage_plain _ Hrows) as Hp.
  split; [|split].
  - unfold calculate_overall_grade. rewrite Hsg. cbn [bind].
    destruct (flt fzero (total_sum (r :: rest))) eqn:Hpos.
    + rewrite (weighted_single _ Hp). reflexivity.
    + cbn [weighted_average has_weights existsb bind]. unfold simple_average.
      fold (total_sum (r :: rest)). rewrite Hpos. reflexivity.
  - intros Hpos. rewrite Hpos in Hsg |- *. eexists. split; [exact Hsg|].
    split; [reflexivity|]. apply weighted_single. exact Hp.
  - intros Hpos sg Hsg'. rewrite Hsg, Hpos in Hsg'. injection Hsg' as <-. reflexivity.
Qed.

(** ** Two sections of equal weight *)













(** * Statements about the parser *)




(** X1: [float] of a run of digits whose value is below 2^53 is exact, so
    for such integers the achieved and total of a record are the integers
    themselves. *)
Theorem small_integers_are_exact :
  forall ds,
  (decimal ds < 9007199254740992)%N ->
  integer_value (float_of_digits ds) = Some (Z.of_N (decimal ds)).
Proof. intros ds H. unfold float_of_digits. apply of_N_exact. exact H. Qed.

Lemma small_integers_are_exact_witness :
  integer_value (float_of_digits (str "0018")) = Some 18%Z.
Proof. apply (small_integers_are_exact (str "0018")). reflexivity. Defined.

(** C6: a line of the text that contains one of the header substrings
    yields no record, whatever else it contains, a grade token included. *)
Theorem header_line_yields_nothing :
  forall text before line after header,
  splitlines text = before ++ line :: after ->
  In header headers -> occurs_in header line ->
  extract_assignments_and_grades text
    = frame_of_lines before ++ frame_of_lines after.
Proof.
  intros text before line after header Hlines Hin Hocc.
  unfold extract_assignments_and_grades. rewrite Hlines.
  rewrite frame_of_lines_app, frame_of_lines_skip; [reflexivity|].
  apply parse_line_header. apply is_header_spec. eauto.
Qed.

Lemma header_line_yields_nothing_witness :
  has_token (str "Points 18/20")
  /\ extract_assignments_and_grades (join_lines [str "Points 18/20"; str "Lab 4/5"])
     = frame_of_lines [] ++ frame_of_lines [str "Lab 4/5"].
Proof.
  split.
  - exists (str "Points "), (str "18"), (str "20"), [].
    split; [reflexivity|]. split; digits_number.
  - apply (header_line_yields_nothing
             (join_lines [str "Points 18/20"; str "Lab 4/5"])
             [] (str "Points 18/20") [str "Lab 4/5"] (str "Points") eq_refl).
    + right. left. reflexivity.
    + exists [], (str " 18/20"). reflexivity.
Defined.




(** C4, as amended: every record the parser returns has a total that is
    not negative; a total of zero is possible. *)
Theorem parsed_totals_not_negative :
  forall text,
  Forall (fun r => fle fzero (Total r) = true) (extract_assignments_and_grades text).
Proof.
  intros text. unfold extract_assignments_and_grades.
  eapply Forall_impl; [|apply frame_rows_parsed].
  intros r (_ & _ & _ & Ht). apply rounded_nonneg. exact Ht.
Qed.

(** C4 as stated fails: the line "Quiz 0/0" yields a record whose total is 0. *)
Lemma zero_total_is_parsed :
  extract_assignments_and_grades (str "Quiz 0/0") = [record (str "Quiz") fzero fzero]
  /\ exists r, In r (extract_assignments_and_grades (str "Quiz 0/0"))
               /\ flt fzero (Total r) = false.
Proof.
  split; [reflexivity|].
  exists (record (str "Quiz") fzero fzero). split; [left; reflexivity|reflexivity].
Qed.

(** * Statements about the title *)





(** * Statements about the aggregation *)

(** C5, as amended: on every record set the parser produces, the grade is
    the unweighted value, the rounded ratio of the sums or 0 when the grand
    total is not positive.  The weighted block is not dead code: when the
    grand total is positive it is the block that returns (one section, weight
    100) and its value is that same ratio; when it is not, no section is
    recorded and the block is not entered. *)
Theorem parsed_grade_is_unweighted_ratio :
  forall text,
  let df := extract_assignments_and_grades text in
  calculate_overall_grade df = Ok (unweighted_grade df)
  /\ (flt fzero (total_sum df) = true ->
      exists sg, section_grades_of df = Ok sg /\ has_weights sg = true
                 /\ weighted_average sg = Ok (Some (unweighted_grade df)))
  /\ (flt fzero (total_sum df) = false ->
      forall sg, section_grades_of df = Ok sg -> has_weights sg = false).
Proof.
  intros text df. apply parsed_grade. apply frame_rows_parsed.
Qed.

Lemma parsed_grade_is_unweighted_ratio_witness :
  exists sg,
    section_grades_of (extract_assignments_and_grades sample_text) = Ok sg
    /\ has_weights sg = true
    /\ weighted_average sg
       = Ok (Some (unweighted_grade (extract_assignments_and_grades sample_text))).
Proof.
  apply (proj1 (proj2 (parsed_grade_is_unweighted_ratio sample_text))).
  vm_compute. reflexivity.
Defined.

(** C5 as stated fails: on the record set of "Homework 1 18/20" the guard of
    the weighted block holds and the block returns the grade, 90.00. *)
Lemma weighted_branch_is_taken :
  exists sg,
    section_grades_of (extract_assignments_and_grades (str "Homework 1 18/20")) = Ok sg
    /\ has_weights sg = true
    /\ weighted_average sg = Ok (Some (of_Z 90))
    /\ calculate_overall_grade (extract_assignments_and_grades (str "Homework 1 18/20"))
       = Ok (of_Z 90).
Proof.
  eexists. split; [vm_compute; reflexivity|].
  split; [reflexivity|]. split; vm_compute; reflexivity.
Qed.




(** * Further properties of the program *)

(** ** The extension test *)

Lemma rsplit1_absent sep s : ~ In sep s -> rsplit1 sep s = [s].
Proof.
  induction s as [|c s IH]; intros Hno; [reflexivity|].
  cbn [rsplit1]. rewrite IH by (intros H; apply Hno; right; exact H).
  destruct (eq_ascii c sep) eqn:Hc; [|reflexivity].
  exfalso. apply Hno. left. exact (eq_ascii_true _ _ Hc).
Qed.

Lemma rsplit1_last sep stem ext :
  ~ In sep ext -> rsplit1 sep (stem ++ sep :: ext) = [stem; ext].
Proof.
  intros Hno. induction stem as [|c stem IH]; cbn [app rsplit1].
  - rewrite (rsplit1_absent _ _ Hno), eq_ascii_refl. reflexivity.
  - rewrite IH. reflexivity.
Qed.

Lemma last_occurrence (c : ascii) s :
  In c s -> exists stem ext, s = stem ++ c :: ext /\ ~ In c ext.
Proof.
  induction s as [|x s IH]; intros Hin; [destruct Hin|].
  destruct (in_dec ascii_dec c s) as [Hs|Hs].
  - destruct (IH Hs) as (stem & ext & -> & Hno).
    exists (x :: stem), ext. split; [reflexivity|exact Hno].
  - destruct Hin as [->|Hin]; [|contradiction].
    exists [], s. split; [reflexivity|exact Hs].
Qed.

Lemma contains_char c s : contains [c] s = true <-> In c s.
Proof.
  rewrite contains_spec. split.
  - intros (pre & post & ->). apply in_or_app. right. left. reflexivity.
  - intros H. destruct (in_split _ _ H) as (pre & post & ->).
    exists pre, post. reflexivity.
Qed.

Lemma str_eqb_eq a b : str_eqb a b = true <-> a = b.
Proof.
  unfold str_eqb. destruct (list_eq_dec ascii_dec a b); split; auto; discriminate.
Qed.

Lemma lower_char_p c : lower_char c = "p"%char <-> (c = "p" \/ c = "P")%char.
Proof.
  split.
  - destruct c as [[] [] [] [] [] [] [] []]; vm_compute; intros H;
      first [discriminate H | left; reflexivity | right; reflexivity].
  - intros [->| ->]; reflexivity.
Qed.

Lemma lower_char_d c : lower_char c = "d"%char <-> (c = "d" \/ c = "D")%char.
Proof.
  split.
  - destruct c as [[] [] [] [] [] [] [] []]; vm_compute; intros H;
      first [discriminate H | left; reflexivity | right; reflexivity].
  - intros [->| ->]; reflexivity.
Qed.

Lemma lower_char_f c : lower_char c = "f"%char <-> (c = "f" \/ c = "F")%char.
Proof.
  split.
  - destruct c as [[] [] [] [] [] [] [] []]; vm_compute; intros H;
      first [discriminate H | left; reflexivity | right; reflexivity].
  - intros [->| ->]; reflexivity.
Qed.

Lemma lower_pdf ext : lower ext = str "pdf" <-> pdf_extension ext.
Proof.
  unfold pdf_extension. split.
  - destruct ext as [|c1 [|c2 [|c3 [|c4 t]]]]; try discriminate.
    cbn [lower map str list_ascii_of_string]. intros H.
    injection H as H1 H2 H3.
    exists c1, c2, c3. split; [reflexivity|].
    rewrite <- lower_char_p, <- lower_char_d, <- lower_char_f. auto.
  - intros (c1 & c2 & c3 & -> & H1 & H2 & H3).
    apply lower_char_p in H1. apply lower_char_d in H2. apply lower_char_f in H3.
    cbn [lower map]. rewrite H1, H2, H3. reflexivity.
Qed.

Lemma pdf_extension_no_dot ext : pdf_extension ext -> ~ In "."%char ext.
Proof.
  intros (c1 & c2 & c3 & -> & H1 & H2 & H3) Hin.
  cbn [In] in Hin.
  destruct Hin as [H|[H|[H|[]]]]; subst;
    repeat match goal with H : _ \/ _ |- _ => destruct H end; discriminate.
Qed.

Lemma allowed_file_with_dot stem ext :
  ~ In "."%char ext ->
  allowed_file (stem ++ "."%char :: ext)
  = Ok (existsb (str_eqb (lower ext)) ALLOWED_EXTENSIONS).
Proof.
  intros Hno. unfold allowed_file.
  assert (Hc : contains (str ".") (stem ++ "."%char :: ext) = true).
  { apply (contains_char "."%char). apply in_or_app. right. left. reflexivity. }
  rewrite Hc, (rsplit1_last _ _ _ Hno). reflexivity.
Qed.

Lemma allowed_file_without_dot filename :
  ~ In "."%char filename -> allowed_file filename = Ok false.
Proof.
  intros Hno. unfold allowed_file.
  destruct (contains (str ".") filename) eqn:Hc; [|reflexivity].
  exfalso. apply Hno. apply (contains_char "."%char). exact Hc.
Qed.

Lemma allowed_file_returns filename : exists b, allowed_file filename = Ok b.
Proof.
  destruct (in_dec ascii_dec "."%char filename) as [Hin|Hno].
  - destruct (last_occurrence _ _ Hin) as (stem & ext & -> & Hext).
    rewrite (allowed_file_with_dot _ _ Hext). eauto.
  - rewrite (allowed_file_without_dot _ Hno). eauto.
Qed.

Lemma allowed_file_true filename :
  allowed_file filename = Ok true
  <-> exists stem ext, filename = stem ++ "."%char :: ext /\ pdf_extension ext.
Proof.
  split.
  - intros H. destruct (in_dec ascii_dec "."%char filename) as [Hin|Hno].
    + destruct (last_occurrence _ _ Hin) as (stem & ext & -> & Hext).
      rewrite (allowed_file_with_dot _ _ Hext) in H.
      exists stem, ext. split; [reflexivity|].
      apply lower_pdf. injection H as H. cbn [ALLOWED_EXTENSIONS existsb] in H.
      rewrite orb_false_r in H. apply str_eqb_eq in H. exact H.
    + rewrite (allowed_file_without_dot _ Hno) in H. discriminate H.
  - intros (stem & ext & -> & Hext).
    rewrite (allowed_file_with_dot _ _ (pdf_extension_no_dot _ Hext)).
    apply lower_pdf in Hext. rewrite Hext. reflexivity.
Qed.

(** X2: [allowed_file] never raises, and it accepts exactly the names that end
    in a dot followed by [pdf] in any mix of upper and lower case: only what
    follows the last dot counts, and a name without a dot is refused. *)
Theorem allowed_file_accepts_pdf_names :
  forall filename,
    (exists b, allowed_file filename = Ok b)
    /\ (allowed_file filename = Ok true
        <-> exists stem ext, filename = stem ++ "."%char :: ext /\ pdf_extension ext).
Proof.
  intros filename. split; [apply allowed_file_returns|apply allowed_file_true].
Qed.

(** ** Sanitized names *)

Lemma sanitize_filename_filter filename :
  sanitize_filename filename = firstn 255 (filter filename_char filename).
Proof. unfold sanitize_filename. rewrite re_sub_cls_filter. reflexivity. Qed.

Lemma all_filter p s : all p (filter p s).
Proof.
  unfold all. apply Forall_forall. intros c Hc. apply filter_In in Hc. apply Hc.
Qed.

Lemma all_firstn p n s : all p s -> all p (firstn n s).
Proof.
  unfold all. rewrite !Forall_forall. intros H c Hc. apply H.
  rewrite (firstn_skipn_eq n s). apply in_or_app. left. exact Hc.
Qed.

Lemma filter_all p (s : list ascii) : all p s -> filter p s = s.
Proof.
  intros H. induction H as [|c s Hc H IH]; [reflexivity|].
  cbn [filter]. rewrite Hc, IH. reflexivity.
Qed.

Lemma sanitize_filename_all filename : all filename_char (sanitize_filename filename).
Proof. rewrite sanitize_filename_filter. apply all_firstn, all_filter. Qed.

Lemma sanitize_filename_length filename :
  List.length (sanitize_filename filename) <= 255.
Proof. rewrite sanitize_filename_filter. apply firstn_le_length. Qed.

Lemma sanitize_filename_clean filename :
  all filename_char filename -> List.length filename <= 255 ->
  sanitize_filename filename = filename.
Proof.
  intros Hall Hlen. rewrite sanitize_filename_filter, (filter_all _ _ Hall).
  apply firstn_all2. exact Hlen.
Qed.

(** X3: whatever the name, [sanitize_filename] returns at most 255
    characters, all of them letters, digits, underscores or hyphens; the
    result holds no path separator and no dot. *)
Theorem sanitize_filename_is_safe :
  forall filename,
    List.length (sanitize_filename filename) <= 255
    /\ all filename_char (sanitize_filename filename)
    /\ ~ In "/"%char (sanitize_filename filename)
    /\ ~ In "\"%char (sanitize_filename filename)
    /\ ~ In "."%char (sanitize_filename filename).
Proof.
  intros filename. pose proof (sanitize_filename_all filename) as Hall.
  split; [apply sanitize_filename_length|]. split; [exact Hall|].
  repeat split; intros Hin; pose proof (all_In Hall Hin) as H; discriminate H.
Qed.

(** X4: [sanitize_filename] leaves a name as it is exactly when the name has
    at most 255 characters, all of them letters, digits, underscores or
    hyphens; applying it twice is the same as applying it once. *)
Theorem sanitize_filename_fixes_safe_names :
  forall filename,
    (sanitize_filename filename = filename
     <-> all filename_char filename /\ List.length filename <= 255)
    /\ sanitize_filename (sanitize_filename filename) = sanitize_filename filename.
Proof.
  intros filename. split; [split|].
  - intros H. rewrite <- H.
    split; [apply sanitize_filename_all|apply sanitize_filename_length].
  - intros [Hall Hlen]. apply sanitize_filename_clean; assumption.
  - apply sanitize_filename_clean;
      [apply sanitize_filename_all|apply sanitize_filename_length].
Qed.

(** ** The name of the workbook *)

Lemma endswith_app suffix s : endswith suffix (s ++ suffix) = true.
Proof.
  unfold endswith. rewrite rev_app_distr. apply startswith_spec. eauto.
Qed.

Lemma endswith_spec suffix s :
  endswith suffix s = true <-> exists stem, s = stem ++ suffix.
Proof.
  unfold endswith. rewrite startswith_spec. split.
  - intros [r Hr]. exists (rev r).
    rewrite <- (rev_involutive s), Hr, rev_app_distr, rev_involutive. reflexivity.
  - intros [stem ->]. exists (rev stem). apply rev_app_distr.
Qed.

Lemma excel_filename_endswith filename :
  endswith (str ".xlsx") (excel_filename_of filename) = true.
Proof.
  unfold excel_filename_of. rewrite app_assoc. apply endswith_app.
Qed.

Lemma upload_path_of_name c name :
  c <> "/"%char ->
  os_path_join UPLOAD_FOLDER (c :: name) = str "uploads/" ++ c :: name.
Proof.
  intros Hc. unfold os_path_join. cbn [startswith str list_ascii_of_string].
  destruct (eq_ascii "/" c) eqn:E.
  - apply eq_ascii_true in E. congruence.
  - reflexivity.
Qed.

Lemma excel_path_in_folder filename :
  os_path_join UPLOAD_FOLDER (excel_filename_of filename)
  = str "uploads/" ++ excel_filename_of filename.
Proof. reflexivity. Qed.

Lemma without_last4_app stem (ext : list ascii) :
  List.length ext = 4 -> without_last4 (stem ++ ext) = stem.
Proof.
  intros H. unfold without_last4. rewrite length_app, H.
  apply firstn_exact. lia.
Qed.

(** X5: the workbook name [upload_file] makes from a file name consists of
    letters, digits, underscores, hyphens and dots, is at most 267 characters
    long and, when the file name ends in a four-character extension, is
    [grades_], the sanitized stem and [.xlsx]; [download_file] never answers
    it with "Invalid file type": it sends the file stored under that name in
    the upload folder, or reports that the file does not exist. *)
Theorem spreadsheet_name_passes_download :
  forall filename fs,
    let name := excel_filename_of filename in
    all spreadsheet_char name
    /\ List.length name <= 267
    /\ (forall stem ext, filename = stem ++ ext -> List.length ext = 4 ->
        name = str "grades_" ++ sanitize_filename stem ++ str ".xlsx")
    /\ download_file name fs
       = match read (str "uploads/" ++ name) fs with
         | Some c => send_file c
         | None => status (str "Error: The file " ++ name ++ str " does not exist.") 404
         end.
Proof.
  intros filename fs name. split; [|split; [|split]].
  - unfold name, excel_filename_of, all.
    apply Forall_app. split; [repeat constructor|].
    apply Forall_app. split; [|repeat constructor].
    pose proof (sanitize_filename_all (without_last4 filename)) as H.
    eapply Forall_impl; [|exact H]. intros c Hc. unfold spreadsheet_char.
    cbv beta in Hc. rewrite Hc. reflexivity.
  - unfold name, excel_filename_of. rewrite !length_app.
    pose proof (sanitize_filename_length (without_last4 filename)).
    cbn [str list_ascii_of_string List.length]. lia.
  - intros stem ext -> Hext. unfold name, excel_filename_of.
    rewrite (without_last4_app _ _ Hext). reflexivity.
  - unfold download_file. fold name.
    unfold name at 1. rewrite excel_filename_endswith. cbn [negb].
    unfold name. rewrite excel_path_in_folder. reflexivity.
Qed.

(** ** The text of a document *)

Lemma fold_pages texts : forall acc,
  fold_left (fun text page => text ++ page ++ ["010"%char]) texts acc
  = acc ++ text_of_pages texts.
Proof.
  induction texts as [|p texts IH]; intros acc; cbn [fold_left text_of_pages flat_map].
  - symmetry. apply app_nil_r.
  - rewrite IH. rewrite <- !app_assoc. reflexivity.
Qed.

Lemma extract_text_pages texts :
  extract_text_from_scanned_pdf (Pages texts) = Returns (text_of_pages texts).
Proof. unfold extract_text_from_scanned_pdf. rewrite fold_pages. reflexivity. Qed.

(** ** Lines across the end of a page *)

Lemma splitlines_from_lf s : forall after_cr cur t,
  (after_cr = true -> cur = []) ->
  splitlines_from after_cr cur (s ++ LF :: t)
  = splitlines_from after_cr cur (s ++ [LF]) ++ splitlines t.
Proof.
  induction s as [|c s IH]; intros b cur t Hinv.
  - cbn [app splitlines_from]. destruct b.
    + rewrite (Hinv eq_refl). reflexivity.
    + reflexivity.
  - cbn [app splitlines_from].
    destruct (b && is_lf c).
    + apply IH. discriminate.
    + destruct (is_linebreak c).
      * cbn [app]. f_equal. apply IH. reflexivity.
      * apply IH. discriminate.
Qed.

Lemma splitlines_from_final_lf s : forall after_cr cur,
  (after_cr = true -> cur = []) ->
  exists extra, (extra = [] \/ extra = [[]])
    /\ splitlines_from after_cr cur (s ++ [LF])
       = splitlines_from after_cr cur s ++ extra.
Proof.
  induction s as [|c s IH]; intros b cur Hinv.
  - cbn [app splitlines_from]. destruct b.
    + rewrite (Hinv eq_refl). exists []. split; [left; reflexivity|reflexivity].
    + cbn [andb is_linebreak]. destruct cur as [|x cur].
      * exists [[]]. split; [right; reflexivity|reflexivity].
      * exists []. split; [left; reflexivity|]. reflexivity.
  - cbn [app splitlines_from].
    destruct (b && is_lf c).
    + apply IH. discriminate.
    + destruct (is_linebreak c).
      * destruct (IH (is_cr c) [] (fun _ => eq_refl)) as (extra & Hex & ->).
        exists extra. split; [exact Hex|reflexivity].
      * apply IH. discriminate.
Qed.

Lemma splitlines_page page rest :
  exists extra, (extra = [] \/ extra = [[]])
    /\ splitlines (page ++ LF :: rest) = (splitlines page ++ extra) ++ splitlines rest.
Proof.
  unfold splitlines.
  destruct (splitlines_from_final_lf page false [] ltac:(discriminate))
    as (extra & Hex & H).
  exists extra. split; [exact Hex|].
  rewrite splitlines_from_lf by discriminate. rewrite H. reflexivity.
Qed.

Lemma frame_of_lines_extra lines extra :
  extra = [] \/ extra = [[]] -> frame_of_lines (lines ++ extra) = frame_of_lines lines.
Proof.
  intros [-> | ->]; rewrite frame_of_lines_app; apply app_nil_r.
Qed.

Lemma records_of_text_of_pages texts :
  extract_assignments_and_grades (text_of_pages texts)
  = flat_map extract_assignments_and_grades texts.
Proof.
  induction texts as [|p texts IH]; [reflexivity|].
  cbn [text_of_pages flat_map]. fold (text_of_pages texts).
  rewrite <- IH. unfold extract_assignments_and_grades.
  rewrite <- app_assoc. cbn [app].
  destruct (splitlines_page p (text_of_pages texts)) as (extra & Hex & ->).
  rewrite frame_of_lines_app, (frame_of_lines_extra _ _ Hex). reflexivity.
Qed.

(** X6: the records found in the text of a document are the records of its
    pages, page after page: the line feed added after each page never joins
    two pages into one line nor adds a record. *)
Theorem records_of_pages_concatenate :
  forall texts, exists text,
    extract_text_from_scanned_pdf (Pages texts) = Returns text
    /\ extract_assignments_and_grades text
       = flat_map extract_assignments_and_grades texts.
Proof.
  intros texts. exists (text_of_pages texts).
  split; [apply extract_text_pages|apply records_of_text_of_pages].
Qed.

(** ** Trimmed strings *)

Lemma lstrip_stops s : stops is_space s -> lstrip s = s.
Proof. destruct s as [|c s]; [reflexivity|]. cbn [stops lstrip]. intros ->. reflexivity. Qed.

Lemma lstrip_app_stops x y : stops is_space y -> lstrip (x ++ y) = lstrip x ++ y.
Proof.
  intros Hy. induction x as [|c x IH]; cbn [app lstrip].
  - apply lstrip_stops. exact Hy.
  - destruct (is_space c); [exact IH|reflexivity].
Qed.

Lemma rstrip_app a b : stops is_space (rev a) -> rstrip (a ++ b) = a ++ rstrip b.
Proof.
  intros Ha. unfold rstrip. rewrite rev_app_distr, (lstrip_app_stops _ _ Ha).
  rewrite rev_app_distr, rev_involutive. reflexivity.
Qed.

Lemma lstrip_is_stopped s : stops is_space (lstrip s).
Proof.
  induction s as [|c s IH]; cbn [lstrip]; [exact I|].
  destruct (is_space c) eqn:Hc; [exact IH|exact Hc].
Qed.

Lemma rstrip_is_stopped s : stops is_space (rev (rstrip s)).
Proof. unfold rstrip. rewrite rev_involutive. apply lstrip_is_stopped. Qed.

Lemma rstrip_keeps_head s : stops is_space s -> stops is_space (rstrip s).
Proof.
  destruct s as [|c s]; [intros _; exact I|]. cbn [stops]. intros Hc.
  change (c :: s) with ([c] ++ s). rewrite rstrip_app; [exact Hc|exact Hc].
Qed.

Lemma strip_trimmed s : trimmed (strip s).
Proof.
  unfold trimmed, strip. split.
  - apply rstrip_keeps_head, lstrip_is_stopped.
  - apply rstrip_is_stopped.
Qed.

Lemma rstrip_stops s : stops is_space (rev s) -> rstrip s = s.
Proof. intros H. unfold rstrip. rewrite (lstrip_stops _ H). apply rev_involutive. Qed.

Lemma strip_of_trimmed s : trimmed s -> strip s = s.
Proof.
  intros [H1 H2]. unfold strip. rewrite (lstrip_stops _ H1). apply rstrip_stops, H2.
Qed.

Lemma parse_line_item line e :
  parse_line line = Some e -> exists s, e_Item e = strip s.
Proof.
  unfold parse_line. destruct (strip line); [discriminate|].
  destruct (is_header _); [discriminate|].
  destruct (re_search grade_re _) as [m|]; [|discriminate].
  intros H. injection H as <-. cbn [e_Item]. eauto.
Qed.

Lemma frame_items lines r :
  In r (frame_of_lines lines) -> exists s, Item r = strip s.
Proof.
  unfold frame_of_lines. induction lines as [|l lines IH]; cbn [extracted_data map].
  - intros [].
  - destruct (parse_line l) as [e|] eqn:He; [|exact IH].
    cbn [map]. intros [<-|Hin]; [|exact (IH Hin)].
    cbn [with_weight Item]. exact (parse_line_item _ _ He).
Qed.

(** X7: the label of every record the parser returns is trimmed: it neither
    begins nor ends with white space, and [strip] leaves it unchanged. *)
Theorem record_labels_are_trimmed :
  forall text r,
    In r (extract_assignments_and_grades text) ->
    trimmed (Item r) /\ strip (Item r) = Item r.
Proof.
  intros text r Hin. destruct (frame_items _ _ Hin) as [s ->].
  split; [apply strip_trimmed|apply strip_of_trimmed, strip_trimmed].
Qed.

Lemma record_labels_are_trimmed_witness :
  trimmed (str "Homework 1") /\ strip (str "Homework 1") = str "Homework 1".
Proof.
  apply (record_labels_are_trimmed sample_text
           (Row all_grades (str "Homework 1") (of_Z 18) (of_Z 20) (of_Z 100))).
  left. reflexivity.
Defined.

(** ** The shape of a title *)

Lemma course_code_dec line :
  (exists m, re_match course_re line = Some m /\ course_code line)
  \/ (re_match course_re line = None /\ ~ course_code line).
Proof.
  destruct (re_match course_re line) as [m|] eqn:Hm.
  - left. exists m. split; [reflexivity|exact (course_match_inv _ _ Hm)].
  - right. split; [reflexivity|]. intros Hc.
    destruct (course_match _ Hc) as [m' Hm']. congruence.
Qed.

Lemma upper_title_char c : is_upper c = true -> title_char c = true.
Proof. intros H. unfold title_char. rewrite H. reflexivity. Qed.

Lemma digit_title_char c : is_digit c = true -> title_char c = true.
Proof. intros H. unfold title_char. rewrite H. rewrite !orb_true_r. reflexivity. Qed.

Lemma upper_not_space c : is_upper c = true -> is_space c = false.
Proof.
  destruct c as [[] [] [] [] [] [] [] []]; intros H; try reflexivity; discriminate H.
Qed.

Lemma filter_app_all {T} (p : T -> bool) a b :
  Forall (fun c => p c = true) a -> filter p (a ++ b) = a ++ filter p b.
Proof.
  intros H. induction H as [|c a Hc H IH]; [reflexivity|].
  cbn [app filter]. rewrite Hc, IH. reflexivity.
Qed.

Lemma stops_app p (a b : list ascii) : a <> [] -> stops p a -> stops p (a ++ b).
Proof. destruct a; [contradiction|intros _ H; exact H]. Qed.

(** The code at the head of a course line survives [strip] and the removal
    of the OCR artefacts. *)
Lemma title_of_course_line line :
  course_code line ->
  course_code (filter title_char (strip line))
  /\ exists letters, 2 <= List.length letters /\ all is_upper letters
       /\ exists rest, filter title_char (strip line) = letters ++ rest.
Proof.
  intros (letters & d3 & d2 & rest & -> & Hlen & Hup & Hl3 & Hd3 & Hl2 & Hd2).
  set (code := letters ++ "-"%char :: d3 ++ "-"%char :: d2).
  assert (Hline : letters ++ "-"%char :: d3 ++ "-"%char :: d2 ++ rest = code ++ rest).
  { unfold code. rewrite <- !app_assoc. cbn [app]. rewrite <- !app_assoc.
    reflexivity. }
  rewrite Hline.
  assert (Hhead : stops is_space code).
  { unfold code. destruct letters as [|l letters]; [cbn in Hlen; lia|].
    cbn [app stops]. apply upper_not_space. inversion Hup; assumption. }
  assert (Hlast : stops is_space (rev code)).
  { unfold code. destruct d2 as [|a [|b [|c d2]]]; try discriminate Hl2.
    replace (letters ++ "-"%char :: d3 ++ "-"%char :: [a; b])
      with ((letters ++ "-"%char :: d3 ++ "-"%char :: [a]) ++ [b])
      by (rewrite <- !app_assoc; cbn [app]; rewrite <- !app_assoc; reflexivity).
    rewrite rev_app_distr. cbn [rev app stops].
    apply digit_not_space. inversion Hd2 as [|? ? _ H2]. inversion H2; assumption. }
  assert (Hall : all title_char code).
  { unfold code, all. apply Forall_app. split.
    - eapply Forall_impl; [|exact Hup]. exact upper_title_char.
    - constructor; [reflexivity|]. apply Forall_app. split.
      + eapply Forall_impl; [|exact Hd3]. exact digit_title_char.
      + constructor; [reflexivity|].
        eapply Forall_impl; [|exact Hd2]. exact digit_title_char. }
  assert (Hstrip : strip (code ++ rest) = code ++ rstrip rest).
  { unfold strip. rewrite lstrip_stops.
    - apply rstrip_app. exact Hlast.
    - apply stops_app; [|exact Hhead].
      unfold code. destruct letters; [cbn in Hlen; lia|discriminate]. }
  rewrite Hstrip, (filter_app_all _ _ _ Hall).
  split.
  - exists letters, d3, d2, (filter title_char (rstrip rest)).
    split; [|repeat split; assumption].
    unfold code. rewrite <- !app_assoc. cbn [app]. rewrite <- !app_assoc.
    reflexivity.
  - exists letters. split; [exact Hlen|]. split; [exact Hup|].
    exists ("-"%char :: d3 ++ "-"%char :: d2 ++ filter title_char (rstrip rest)).
    unfold code. rewrite <- !app_assoc. cbn [app]. rewrite <- !app_assoc.
    reflexivity.
Qed.

Lemma course_title_not_unknown line :
  course_code line -> filter title_char (strip line) <> unknown_course.
Proof.
  intros Hc. destruct (title_of_course_line _ Hc) as (_ & letters & Hlen & Hup & rest & ->).
  destruct letters as [|a [|b letters]]; try (cbn in Hlen; lia).
  inversion Hup as [|? ? _ Hup']. inversion Hup' as [|? ? Hb _]. subst.
  intros H. injection H as _ Hb' _. subst b. discriminate Hb.
Qed.

Lemma first_course_line_cases lines :
  (Forall (fun l => ~ course_code l) lines /\ first_course_line lines = unknown_course)
  \/ (exists pre line post,
        lines = pre ++ line :: post /\ Forall (fun l => ~ course_code l) pre
        /\ course_code line
        /\ first_course_line lines = filter title_char (strip line)).
Proof.
  induction lines as [|l lines IH].
  - left. split; [constructor|reflexivity].
  - destruct (course_code_dec l) as [(m & Hm & Hc)|(Hm & Hc)].
    + right. exists [], l, lines. split; [reflexivity|]. split; [constructor|].
      split; [exact Hc|]. cbn [first_course_line]. rewrite Hm.
      apply re_sub_cls_filter.
    + cbn [first_course_line]. rewrite Hm.
      destruct IH as [[Hall Hu]|(pre & line & post & -> & Hpre & Hline & Hf)].
      * left. split; [constructor; assumption|exact Hu].
      * right. exists (l :: pre), line, post. split; [reflexivity|].
        split; [constructor; assumption|]. split; [exact Hline|exact Hf].
Qed.

Lemma unknown_iff_no_code lines :
  first_course_line lines = unknown_course
  <-> Forall (fun l => ~ course_code l) lines.
Proof.
  split; [|apply first_course_line_none].
  intros Hu. destruct (first_course_line_cases lines)
    as [[Hall _]|(pre & line & post & -> & Hpre & Hline & Hf)]; [exact Hall|].
  rewrite Hf in Hu. exfalso. exact (course_title_not_unknown _ Hline Hu).
Qed.


(** ** The title of a document *)

Lemma first_course_line_app l1 l2 :
  first_course_line (l1 ++ l2)
  = if str_eqb (first_course_line l1) unknown_course
    then first_course_line l2 else first_course_line l1.
Proof.
  induction l1 as [|l l1 IH].
  - reflexivity.
  - cbn [app first_course_line].
    destruct (course_code_dec l) as [(m & Hm & Hc)|(Hm & Hc)]; rewrite Hm.
    + rewrite !re_sub_cls_filter.
      destruct (str_eqb (filter title_char (strip l)) unknown_course) eqn:E;
        [|reflexivity].
      exfalso. unfold str_eqb in E.
      destruct (list_eq_dec ascii_dec _ _) as [He|]; [|discriminate].
      exact (course_title_not_unknown _ Hc He).
    + exact IH.
Qed.

Lemma first_course_line_extra lines extra :
  extra = [] \/ extra = [[]] -> first_course_line (lines ++ extra) = first_course_line lines.
Proof.
  intros Hex. rewrite first_course_line_app.
  destruct (str_eqb _ _) eqn:E; [|reflexivity].
  unfold str_eqb in E. destruct (list_eq_dec ascii_dec _ _) as [He|]; [|discriminate].
  rewrite He. destruct Hex as [-> | ->]; reflexivity.
Qed.

Lemma title_of_text_of_pages page texts :
  extract_course_title (text_of_pages (page :: texts))
  = if str_eqb (extract_course_title page) unknown_course
    then extract_course_title (text_of_pages texts)
    else extract_course_title page.
Proof.
  cbn [text_of_pages flat_map]. fold (text_of_pages texts).
  unfold extract_course_title. rewrite <- app_assoc. cbn [app].
  destruct (splitlines_page page (text_of_pages texts)) as (extra & Hex & ->).
  rewrite first_course_line_app, (first_course_line_extra _ _ Hex). reflexivity.
Qed.

Lemma title_of_untitled_pages texts :
  Forall untitled texts -> extract_course_title (text_of_pages texts) = unknown_course.
Proof.
  intros H. induction H as [|p texts Hp H IH]; [reflexivity|].
  rewrite title_of_text_of_pages, Hp, str_eqb_refl. exact IH.
Qed.

Lemma title_of_first_titled_page before page after :
  Forall untitled before -> ~ untitled page ->
  extract_course_title (text_of_pages (before ++ page :: after))
  = extract_course_title page.
Proof.
  intros H Hp. induction H as [|p before Hu H IH]; cbn [app];
    rewrite title_of_text_of_pages.
  - destruct (str_eqb _ _) eqn:E; [|reflexivity].
    apply str_eqb_eq in E. contradiction.
  - rewrite Hu, str_eqb_refl. exact IH.
Qed.

(** X9: the title of a document is the title of its first page that has
    one; a document none of whose pages has a title is an "Unknown
    Course". *)
Theorem title_of_first_page_with_one :
  forall texts, exists text,
    extract_text_from_scanned_pdf (Pages texts) = Returns text
    /\ (Forall untitled texts -> untitled text)
    /\ (forall before page after,
          texts = before ++ page :: after ->
          Forall untitled before -> ~ untitled page ->
          extract_course_title text = extract_course_title page).
Proof.
  intros texts. exists (text_of_pages texts).
  split; [apply extract_text_pages|]. split.
  - apply title_of_untitled_pages.
  - intros before page after -> Hb Hp. apply title_of_first_titled_page; assumption.
Qed.

Lemma title_of_first_page_with_one_witness :
  exists text,
    extract_text_from_scanned_pdf
      (Pages [str "Transcript"; sample_text; str "ZZ-999-99 Spring"]) = Returns text
    /\ extract_course_title text = str "MIS-353-01 Fall".
Proof.
  destruct (title_of_first_page_with_one
              [str "Transcript"; sample_text; str "ZZ-999-99 Spring"])
    as (text & Htext & _ & Htitle).
  exists text. split; [exact Htext|].
  rewrite (Htitle [str "Transcript"] sample_text [str "ZZ-999-99 Spring"] eq_refl).
  - reflexivity.
  - repeat constructor.
  - intros H. vm_compute in H. discriminate H.
Defined.

(** ** The fallback of the aggregation *)

Lemma simple_average_unweighted df : simple_average df = Ok (unweighted_grade df).
Proof.
  unfold simple_average, unweighted_grade, ratio_percentage, achieved_sum, total_sum.
  destruct (flt fzero (series_sum (map Total df))) eqn:Hpos; [|reflexivity].
  rewrite (div_guarded _ _ Hpos). reflexivity.
Qed.

Lemma fallback_grade df sg :
  section_grades_of df = Ok sg -> weighted_average sg = Ok None ->
  calculate_overall_grade df = Ok (unweighted_grade df).
Proof.
  intros Hsg Hw. destruct df as [|r df]; [reflexivity|].
  unfold calculate_overall_grade. rewrite Hsg. cbn [bind]. rewrite Hw. cbn [bind].
  apply simple_average_unweighted.
Qed.

(** ** Frames without weights *)

Lemma section_weight_missing df section :
  Forall no_weight df -> section_weight df section = Ok None.
Proof.
  intros H. unfold section_weight.
  assert (Hall : forallb is_nan (map Weight (section_rows df section)) = true).
  { apply forallb_forall. intros w Hw. apply in_map_iff in Hw.
    destruct Hw as (r & <- & Hr). unfold section_rows in Hr.
    apply filter_In in Hr. destruct Hr as [Hr _].
    rewrite Forall_forall in H. exact (H r Hr). }
  rewrite Hall. reflexivity.
Qed.

Lemma dict_set_unweighted d key p :
  Forall (fun kv => weight (snd kv) = None) d ->
  Forall (fun kv : list ascii * grade => weight (snd kv) = None)
         (dict_set d key (Grade p None)).
Proof.
  intros H. induction H as [|[k old] d Hk H IH]; cbn [dict_set].
  - constructor; [reflexivity|constructor].
  - destruct (str_eqb k key); constructor; try assumption. reflexivity.
Qed.

Lemma fold_sections_unweighted df sections :
  Forall no_weight df ->
  forall acc, Forall (fun kv => weight (snd kv) = None) acc ->
  exists sg, fold_left (section_step df) sections (Ok acc) = Ok sg
             /\ Forall (fun kv => weight (snd kv) = None) sg.
Proof.
  intros Hdf. induction sections as [|s rest IH]; intros acc Hacc; cbn [fold_left].
  - eauto.
  - unfold section_step at 2. cbn [bind].
    rewrite (section_weight_missing _ _ Hdf). cbn [bind].
    destruct (flt fzero (section_total df s)) eqn:Hpos.
    + rewrite (div_guarded _ _ Hpos). cbn [bind].
      apply IH. apply dict_set_unweighted. exact Hacc.
    + apply IH. exact Hacc.
Qed.

Lemma has_weights_none sg :
  Forall (fun kv : list ascii * grade => weight (snd kv) = None) sg ->
  has_weights sg = false.
Proof.
  intros H. unfold has_weights. induction H as [|kv sg Hkv H IH]; [reflexivity|].
  cbn [existsb]. rewrite Hkv. exact IH.
Qed.

(** X10: a frame in which every weight is missing is graded by the rounded
    ratio of the column sums. *)
Theorem missing_weights_give_unweighted_grade :
  forall df,
    Forall no_weight df ->
    calculate_overall_grade df = Ok (unweighted_grade df).
Proof.
  intros df Hdf.
  destruct (fold_sections_unweighted df (unique (map Section_ df)) Hdf [] (Forall_nil _))
    as (sg & Hsg & Hnone).
  apply (fallback_grade df sg Hsg).
  unfold weighted_average. rewrite (has_weights_none _ Hnone). reflexivity.
Qed.

Lemma missing_weights_give_unweighted_grade_witness :
  calculate_overall_grade unweighted_frame = Ok (fquot (of_Z 9818) (of_Z 100)).
Proof.
  apply (missing_weights_give_unweighted_grade unweighted_frame).
  repeat constructor.
Defined.

(** ** A missing first weight *)

Lemma is_nan_eq x : is_nan x = true -> x = S754_nan.
Proof. destruct x; try discriminate. reflexivity. Qed.

Lemma section_weight_first_missing df section r rest :
  section_rows df section = r :: rest -> no_weight r ->
  existsb has_weight rest = true ->
  section_weight df section = Ok (Some S754_nan).
Proof.
  intros Hrows Hr Hrest. unfold section_weight. rewrite Hrows. cbn [map forallb].
  assert (Hall : forallb is_nan (map Weight rest) = false).
  { apply existsb_exists in Hrest. destruct Hrest as (r' & Hin & Hw).
    destruct (forallb is_nan (map Weight rest)) eqn:E; [|reflexivity].
    rewrite forallb_forall in E. unfold has_weight in Hw.
    rewrite (E (Weight r')) in Hw; [discriminate Hw|].
    apply in_map. exact Hin. }
  rewrite Hall, andb_false_r. cbn [negb iloc0 bind].
  rewrite (is_nan_eq _ Hr). reflexivity.
Qed.

Lemma str_eqb_neq a b : str_eqb a b = false <-> a <> b.
Proof.
  unfold str_eqb. destruct (list_eq_dec ascii_dec a b); split; auto;
    try discriminate. intros H. contradiction.
Qed.

Lemma dict_set_in d key v : In (key, v) (dict_set d key v).
Proof.
  induction d as [|[k old] d IH]; cbn [dict_set].
  - left. reflexivity.
  - destruct (str_eqb k key) eqn:E.
    + apply str_eqb_eq in E. subst k. left. reflexivity.
    + right. exact IH.
Qed.

Lemma dict_set_other d key v k g :
  k <> key -> In (k, g) d -> In (k, g) (dict_set d key v).
Proof.
  intros Hne. induction d as [|[k' old] d IH]; cbn [dict_set]; [intros []|].
  intros [H|H].
  - injection H as -> ->. apply str_eqb_neq in Hne. rewrite Hne. left. reflexivity.
  - destruct (str_eqb k' key); right; [exact H|exact (IH H)].
Qed.

(** The entry a section with a positive total gets is there at the end of
    the loop, whatever the other sections are. *)
Lemma fold_sections_entry df section w :
  section_weight df section = Ok (Some w) ->
  flt fzero (section_total df section) = true ->
  forall sections acc,
    let g := Grade (fmul (fquot (section_achieved df section) (section_total df section))
                         (of_Z 100)) (Some w) in
    In section sections \/ In (section, g) acc ->
    exists sg, fold_left (section_step df) sections (Ok acc) = Ok sg
               /\ In (section, g) sg.
Proof.
  intros Hw Hpos sections. induction sections as [|s rest IH]; intros acc g Hin;
    cbn [fold_left].
  - destruct Hin as [[]|Hin]. eauto.
  - destruct (list_eq_dec ascii_dec s section) as [->|Hne].
    + unfold section_step at 2. cbn [bind]. rewrite Hw. cbn [bind].
      rewrite Hpos, (div_guarded _ _ Hpos). cbn [bind].
      apply IH. right. apply dict_set_in.
    + destruct (section_step_returns df acc s) as [acc' Hacc'].
      assert (Hkeep : In (section, g) acc -> In (section, g) acc').
      { revert Hacc'. unfold section_step. cbn [bind].
        destruct (section_weight_returns df s) as [ws ->]. cbn [bind].
        destruct (flt fzero (section_total df s)) eqn:Hs.
        - rewrite (div_guarded _ _ Hs). cbn [bind].
          intros H. injection H as <-. apply dict_set_other.
          intros E. apply Hne. symmetry. exact E.
        - intros H. injection H as <-. auto. }
      rewrite Hacc'. apply IH.
      destruct Hin as [[E|Hin]|Hin]; [contradiction|left; exact Hin|right; auto].
Qed.

Lemma unique_from_complete x xs : forall seen,
  In x xs -> existsb (str_eqb x) seen = false -> In x (unique_from seen xs).
Proof.
  induction xs as [|y xs IH]; intros seen Hin Hseen; [destruct Hin|].
  cbn [unique_from].
  destruct (list_eq_dec ascii_dec y x) as [->|Hne].
  - rewrite Hseen. left. reflexivity.
  - destruct Hin as [E|Hin]; [contradiction|].
    destruct (existsb (str_eqb y) seen).
    + apply IH; assumption.
    + right. apply IH; [exact Hin|]. cbn [existsb].
      assert (Hxy : str_eqb x y = false)
        by (apply str_eqb_neq; intros E; apply Hne; symmetry; exact E).
      rewrite Hxy. exact Hseen.
Qed.

Lemma section_is_listed df section r rest :
  section_rows df section = r :: rest -> In section (unique (map Section_ df)).
Proof.
  intros Hrows. unfold unique. apply unique_from_complete; [|reflexivity].
  assert (Hr : In r (section_rows df section)) by (rewrite Hrows; left; reflexivity).
  unfold section_rows in Hr. apply filter_In in Hr. destruct Hr as [Hin Hs].
  apply str_eqb_eq in Hs. rewrite <- Hs. apply in_map. exact Hin.
Qed.

Lemma fadd_nan_l x : fadd S754_nan x = S754_nan.
Proof. destruct x; reflexivity. Qed.

Lemma fadd_nan_r x : fadd x S754_nan = S754_nan.
Proof. destruct x; reflexivity. Qed.

(** Once the running total of the weights is NaN it stays NaN. *)
Lemma fold_weighted_nan sg : forall x,
  exists y, fold_left weighted_step sg (Ok (x, S754_nan)) = Ok (y, S754_nan).
Proof.
  induction sg as [|kv sg IH]; intros x; cbn [fold_left]; [eauto|].
  unfold weighted_step at 2. cbn [bind fst snd].
  destruct (weight (snd kv)) as [w|]; [|apply IH].
  rewrite div_by_100. cbn [bind]. rewrite fadd_nan_l. apply IH.
Qed.

Lemma fold_weighted_poisoned sg kv :
  In kv sg -> weight (snd kv) = Some S754_nan ->
  forall st, exists y, fold_left weighted_step sg (Ok st) = Ok (y, S754_nan).
Proof.
  intros Hin Hkv. induction sg as [|kv' sg IH]; [destruct Hin|].
  intros st. cbn [fold_left].
  destruct Hin as [->|Hin].
  - unfold weighted_step at 2. cbn [bind]. rewrite Hkv, div_by_100. cbn [bind].
    rewrite fadd_nan_r. apply fold_weighted_nan.
  - destruct (fold_weighted_returns [kv'] st) as [st' Hst'].
    cbn [fold_left] in Hst'. rewrite Hst'. apply (IH Hin).
Qed.

Lemma weighted_average_poisoned sg kv :
  In kv sg -> weight (snd kv) = Some S754_nan -> weighted_average sg = Ok None.
Proof.
  intros Hin Hkv. unfold weighted_average.
  destruct (has_weights sg); [|reflexivity].
  destruct (fold_weighted_poisoned sg kv Hin Hkv (fzero, fzero)) as [y ->].
  reflexivity.
Qed.

(** X11: when the first row of a section with a positive total has no
    weight while a later row of the section has one, the weight of the
    section is NaN, and the whole frame is graded without weights, by the
    ratio of the column sums. *)
Theorem missing_first_weight_disables_weighting :
  forall df section r rest,
    section_rows df section = r :: rest ->
    no_weight r -> existsb has_weight rest = true ->
    flt fzero (section_total df section) = true ->
    section_weight df section = Ok (Some S754_nan)
    /\ calculate_overall_grade df = Ok (unweighted_grade df).
Proof.
  intros df section r rest Hrows Hr Hrest Hpos.
  pose proof (section_weight_first_missing _ _ _ _ Hrows Hr Hrest) as Hw.
  split; [exact Hw|].
  destruct (fold_sections_entry df section _ Hw Hpos (unique (map Section_ df)) [])
    as (sg & Hsg & Hin).
  { left. exact (section_is_listed _ _ _ _ Hrows). }
  apply (fallback_grade df sg Hsg).
  exact (weighted_average_poisoned sg _ Hin eq_refl).
Qed.

Lemma missing_first_weight_disables_weighting_witness :
  section_weight first_weight_missing (str "Homework") = Ok (Some S754_nan)
  /\ calculate_overall_grade first_weight_missing = Ok (of_Z 85).
Proof.
  apply (missing_first_weight_disables_weighting first_weight_missing (str "Homework")
           (Row (str "Homework") (str "Homework 1") (of_Z 8) (of_Z 10) S754_nan)
           [Row (str "Homework") (str "Homework 2") (of_Z 9) (of_Z 10) (of_Z 50)]);
    reflexivity.
Defined.

(** ** The sign of a grade *)

Lemma plain_unsigned x : plain x -> unsigned x.
Proof.
  intros [->|H]; [exact I|].
  destruct x as [s|s| |s m e]; cbn [rounded unsigned] in *; try tauto.
Qed.

Lemma rint_plain x : plain x -> plain (rint x).
Proof.
  intros [->|H]; [left; reflexivity|].
  destruct x as [s|s| |s m e]; cbn [rounded] in H; try contradiction.
  - right. exact H.
  - right. exact H.
  - destruct H as [-> Hb]. cbn [rint]. destruct e as [|k|k].
    + right. split; [reflexivity|exact Hb].
    + right. split; [reflexivity|exact Hb].
    + destruct (round_nearest_even _ _).
      * right. reflexivity.
      * right. apply binary_round_rounded.
      * right. reflexivity.
Qed.

Lemma round2_unsigned x : plain x -> unsigned (round2 x).
Proof.
  intros Hx. unfold round2.
  pose proof (rint_plain _ (fmul_hundred_plain _ (plain_unsigned _ Hx))) as [->|H].
  - exact I.
  - apply fquot_unsigned; [exact H|apply of_Z_rounded; lia].
Qed.

Lemma unsigned_not_negative x : unsigned x -> flt x fzero = false.
Proof. destruct x as [s|s| |s m e]; cbn [unsigned]; intros H; subst; reflexivity. Qed.

(** X12: the grade computed from the records parsed out of any text is
    never negative: it is NaN or carries no minus sign. *)
Theorem parsed_grade_is_not_negative :
  forall text, exists v,
    calculate_overall_grade (extract_assignments_and_grades text) = Ok v
    /\ unsigned v /\ flt v fzero = false.
Proof.
  intros text. set (df := extract_assignments_and_grades text).
  assert (Hrows : Forall parsed_row df) by apply frame_rows_parsed.
  destruct (parsed_grade df Hrows) as [Hg _].
  exists (unweighted_grade df). split; [exact Hg|].
  assert (Hu : unsigned (unweighted_grade df)).
  { unfold unweighted_grade. destruct (flt fzero (total_sum df)); [|reflexivity].
    apply round2_unsigned, parsed_percentage_plain. exact Hrows. }
  split; [exact Hu|apply unsigned_not_negative; exact Hu].
Qed.

(** ** Labels *)

Lemma relabel_sections f df : map Section_ (relabel f df) = map Section_ df.
Proof. unfold relabel. rewrite map_map. reflexivity. Qed.

Lemma relabel_section_rows f df section :
  section_rows (relabel f df) section = relabel f (section_rows df section).
Proof.
  unfold section_rows, relabel. induction df as [|r df IH]; [reflexivity|].
  cbn [map filter Section_]. destruct (str_eqb (Section_ r) section); cbn [map];
    rewrite IH; reflexivity.
Qed.

Lemma relabel_columns f df :
  map Achieved (relabel f df) = map Achieved df
  /\ map Total (relabel f df) = map Total df
  /\ map Weight (relabel f df) = map Weight df.
Proof. unfold relabel. rewrite !map_map. repeat split. Qed.

Lemma relabel_section_step f df acc section :
  section_step (relabel f df) acc section = section_step df acc section.
Proof.
  unfold section_step, section_weight, section_total, section_achieved.
  rewrite relabel_section_rows.
  destruct (relabel_columns f (section_rows df section)) as (-> & -> & ->).
  reflexivity.
Qed.

Lemma relabel_section_grades f df :
  section_grades_of (relabel f df) = section_grades_of df.
Proof.
  unfold section_grades_of. rewrite relabel_sections.
  generalize (unique (map Section_ df)). intros sections.
  generalize (@Ok (list (list ascii * grade)) []).
  induction sections as [|s rest IH]; intros acc; cbn [fold_left]; [reflexivity|].
  rewrite relabel_section_step. apply IH.
Qed.

(** X13: the overall grade does not depend on the labels of the records. *)
Theorem grade_ignores_labels :
  forall f df, calculate_overall_grade (relabel f df) = calculate_overall_grade df.
Proof.
  intros f df. destruct df as [|r df]; [reflexivity|].
  unfold calculate_overall_grade.
  change (relabel f (r :: df))
    with (Row (Section_ r) (f r) (Achieved r) (Total r) (Weight r) :: relabel f df).
  change (Row (Section_ r) (f r) (Achieved r) (Total r) (Weight r) :: relabel f df)
    with (relabel f (r :: df)).
  rewrite relabel_section_grades.
  unfold simple_average.
  destruct (relabel_columns f (r :: df)) as (-> & -> & _). reflexivity.
Qed.

(** ** Whole-number grades on the page *)

Lemma hundredths_whole m e n :
  integer_value (S754_finite false m e) = Some (Z.of_N n) ->
  hundredths m e = (100 * n)%N.
Proof.
  cbn [integer_value cond_Zopp]. destruct e as [|k|k]; intros H.
  - injection H as H. cbn [hundredths]. lia.
  - injection H as H. cbn [hundredths].
    assert (Hn : Z.of_N n = Z.of_N (N.pos m * 2 ^ N.pos k)).
    { rewrite N2Z.inj_mul, N2Z.inj_pow. exact (eq_sym H). }
    apply N2Z.inj in Hn. subst n. lia.
  - destruct (Z.pos m mod 2 ^ Z.pos k =? 0)%Z eqn:Hmod; [|discriminate H].
    injection H as H. apply Z.eqb_eq in Hmod. cbn [hundredths].
    assert (Hpos : (0 < 2 ^ N.pos k)%N) by (apply N.neq_0_lt_0, N.pow_nonzero; lia).
    assert (Hm : N.pos m = (n * 2 ^ N.pos k)%N).
    { apply N2Z.inj. rewrite N2Z.inj_mul, N2Z.inj_pow, <- H.
      change (Z.of_N (N.pos m)) with (Z.pos m).
      change (Z.of_N 2) with 2%Z. change (Z.of_N (N.pos k)) with (Z.pos k).
      rewrite (Z.div_mod (Z.pos m) (2 ^ Z.pos k)) at 1 by lia.
      rewrite Hmod. lia. }
    rewrite Hm.
    replace (100 * (n * 2 ^ N.pos k))%N with (100 * n * 2 ^ N.pos k)%N by lia.
    rewrite N.Div0.mod_mul, N.div_mul by lia.
    replace (2 * 0)%N with 0%N by reflexivity.
    destruct (0 ?= 2 ^ N.pos k)%N eqn:Hc; try reflexivity.
    + apply N.compare_eq in Hc. lia.
    + apply N.compare_gt_iff in Hc. lia.
Qed.

Lemma format_2f_whole x n :
  unsigned x -> integer_value x = Some (Z.of_N n) ->
  format_2f x = decimal_digits n ++ str ".00".
Proof.
  destruct x as [s|s| |s m e]; cbn [unsigned]; intros Hs; try discriminate.
  - subst s. cbn [integer_value]. intros H. injection H as H.
    destruct n; [reflexivity|discriminate H].
  - subst s. intros H. cbn [format_2f minus_sign app].
    rewrite (hundredths_whole _ _ _ H).
    rewrite N.mul_comm, N.Div0.mod_mul, N.div_mul by lia. reflexivity.
Qed.

(** X14: a grade that is a whole number below 2^53 is shown as that number
    followed by [.00]. *)
Theorem whole_grades_end_in_00 :
  forall n, (n < 9007199254740992)%N ->
    format_2f (of_N n) = decimal_digits n ++ str ".00".
Proof.
  intros n Hn. apply format_2f_whole; [|apply of_N_exact; exact Hn].
  apply plain_unsigned. right. apply of_N_rounded.
Qed.

Lemma whole_grades_end_in_00_witness : format_2f (of_N 90) = str "90.00".
Proof. apply (whole_grades_end_in_00 90%N). reflexivity. Defined.

(** ** The upload folder *)

Lemma read_save_same path c fs : read path (save path c fs) = Some c.
Proof.
  induction fs as [|[p old] fs IH]; cbn [save read].
  - rewrite str_eqb_refl. reflexivity.
  - destruct (str_eqb p path) eqn:E; cbn [read]; rewrite E; [reflexivity|exact IH].
Qed.

Lemma read_save_other path c fs q :
  q <> path -> read q (save path c fs) = read q fs.
Proof.
  intros Hne. induction fs as [|[p old] fs IH]; cbn [save read].
  - assert (E : str_eqb path q = false)
      by (apply str_eqb_neq; intros E; apply Hne; symmetry; exact E).
    rewrite E. reflexivity.
  - destruct (str_eqb p path) eqn:E; cbn [read].
    + apply str_eqb_eq in E. subst p.
      assert (E : str_eqb path q = false)
        by (apply str_eqb_neq; intros E; apply Hne; symmetry; exact E).
      rewrite E. reflexivity.
    + destruct (str_eqb p q); [reflexivity|exact IH].
Qed.

Lemma read_remove_same path fs : read path (os_remove path fs) = None.
Proof.
  unfold os_remove. induction fs as [|[p c] fs IH]; [reflexivity|].
  cbn [filter fst]. destruct (str_eqb p path) eqn:E; cbn [negb]; [exact IH|].
  cbn [read]. rewrite E. exact IH.
Qed.

Lemma read_remove_other path fs q :
  q <> path -> read q (os_remove path fs) = read q fs.
Proof.
  intros Hne. unfold os_remove. induction fs as [|[p c] fs IH]; [reflexivity|].
  cbn [filter fst]. destruct (str_eqb p path) eqn:E; cbn [negb read].
  - apply str_eqb_eq in E. subst p.
    assert (E : str_eqb path q = false)
      by (apply str_eqb_neq; intros E; apply Hne; symmetry; exact E).
    rewrite E. exact IH.
  - destruct (str_eqb p q); [reflexivity|exact IH].
Qed.

(** The [finally] clause. *)
Lemma cleanup_removes path fs :
  os_path_exists path (if os_path_exists path fs then os_remove path fs else fs) = false.
Proof.
  destruct (os_path_exists path fs) eqn:E; [|exact E].
  unfold os_path_exists. rewrite read_remove_same. reflexivity.
Qed.

Lemma cleanup_keeps path fs q :
  q <> path ->
  read q (if os_path_exists path fs then os_remove path fs else fs) = read q fs.
Proof.
  intros Hne. destruct (os_path_exists path fs); [|reflexivity].
  apply read_remove_other. exact Hne.
Qed.

(** ** The upload handler *)

Lemma allowed_file_nonempty filename :
  allowed_file filename = Ok true -> filename <> [].
Proof. intros H E. subst filename. discriminate H. Qed.

Lemma upload_file_accepted secure_filename file fs :
  allowed_file (filename file) = Ok true ->
  upload_file secure_filename (POST (Some file)) fs
  = let pdf_path := pdf_path_of secure_filename file in
    let tried := process file (secure_filename (filename file))
                         (save pdf_path (Upload (body file)) fs) in
    (match fst tried with
     | Returns page => page
     | Raises message => upload_html (Some (str "Error processing file: " ++ message))
     end,
     if os_path_exists pdf_path (snd tried) then os_remove pdf_path (snd tried)
     else snd tried).
Proof.
  intros H. pose proof (allowed_file_nonempty _ H) as Hne.
  unfold upload_file. rewrite H.
  destruct (filename file) as [|c name] eqn:E; [contradiction|].
  cbv zeta. fold (pdf_path_of secure_filename file).
  unfold pdf_path_of. rewrite E.
  destruct (process _ _ _) as [tried fs2]. reflexivity.
Qed.

(** What the [try] statement does with the pages of a readable document. *)
Lemma process_pages file filename fs texts :
  body file = Pages texts ->
  process file filename fs
  = let text := text_of_pages texts in
    let df := extract_assignments_and_grades text in
    match df with
    | [] => (Returns (upload_html (Some (str "No grades found in the PDF"))), fs)
    | _ =>
        (Returns (results_html (extract_course_title text)
                               (format_2f (unweighted_grade df) ++ str "%")
                               df (excel_filename_of filename)),
         save (os_path_join UPLOAD_FOLDER (excel_filename_of filename)) (Workbook df) fs)
    end.
Proof.
  intros Hbody. unfold process. rewrite Hbody, extract_text_pages. cbv zeta.
  pose proof (frame_rows_parsed (splitlines (text_of_pages texts))) as Hrows.
  fold (extract_assignments_and_grades (text_of_pages texts)) in Hrows.
  destruct (extract_assignments_and_grades (text_of_pages texts)) as [|r df] eqn:E;
    [reflexivity|].
  destruct (parsed_grade _ Hrows) as [-> _]. reflexivity.
Qed.

Lemma process_unreadable file filename fs message :
  body file = Unreadable message ->
  process file filename fs = (Raises message, fs).
Proof. intros Hbody. unfold process. rewrite Hbody. reflexivity. Qed.

(** X15: after a POST with an accepted file the uploaded PDF is not in the
    folder, whatever text extraction and parsing did; the folder differs
    from the one before the request at most at the path of the PDF and at
    the path of the workbook. *)
Theorem uploaded_pdf_is_removed :
  forall secure_filename file fs,
    allowed_file (filename file) = Ok true ->
    let fs' := snd (upload_file secure_filename (POST (Some file)) fs) in
    os_path_exists (pdf_path_of secure_filename file) fs' = false
    /\ same_except [pdf_path_of secure_filename file; excel_path_of secure_filename file]
                   fs fs'.
Proof.
  intros secure_filename file fs H fs'. unfold fs'.
  rewrite (upload_file_accepted _ _ _ H). cbv zeta. cbn [snd].
  split; [apply cleanup_removes|].
  intros q Hq. rewrite cleanup_keeps by (intros E; apply Hq; left; symmetry; exact E).
  assert (Hq1 : q <> pdf_path_of secure_filename file)
    by (intros E; apply Hq; left; symmetry; exact E).
  assert (Hq2 : q <> excel_path_of secure_filename file)
    by (intros E; apply Hq; right; left; symmetry; exact E).
  unfold process.
  destruct (extract_text_from_scanned_pdf (body file)) as [text|message]; cbn [snd];
    [|apply read_save_other; exact Hq1].
  destruct (extract_assignments_and_grades text) as [|r df]; cbn [snd];
    [apply read_save_other; exact Hq1|].
  destruct (calculate_overall_grade (r :: df)); cbn [snd]; unfold save_to_excel;
    (rewrite read_save_other; [apply read_save_other; exact Hq1|exact Hq2]).
Qed.

Lemma uploaded_pdf_is_removed_witness :
  os_path_exists (str "uploads/grades.pdf")
    (snd (upload_file keep_name (POST (Some sample_upload)) [])) = false
  /\ same_except [str "uploads/grades.pdf"; str "uploads/grades_grades.xlsx"]
       [] (snd (upload_file keep_name (POST (Some sample_upload)) [])).
Proof.
  exact (uploaded_pdf_is_removed keep_name sample_upload [] eq_refl).
Defined.

(** X16: a POST whose file name does not end in a dot followed by [pdf] (in
    any case) is answered with "No file selected" when the name is empty
    and with "Invalid file type" otherwise, and nothing is stored. *)
Theorem other_extensions_are_rejected :
  forall secure_filename file fs,
    (forall stem ext, filename file = stem ++ "."%char :: ext -> ~ pdf_extension ext) ->
    upload_file secure_filename (POST (Some file)) fs
    = (upload_html (Some (rejection (filename file))), fs).
Proof.
  intros secure_filename file fs Hext.
  destruct (allowed_file_returns (filename file)) as [[|] Hb].
  - exfalso. apply allowed_file_true in Hb. destruct Hb as (stem & ext & Hn & Hp).
    exact (Hext _ _ Hn Hp).
  - unfold upload_file, rejection. rewrite Hb.
    destruct (filename file); reflexivity.
Qed.

Lemma other_extensions_are_rejected_witness :
  upload_file keep_name
    (POST (Some {| filename := str "grades.pdf.exe"; body := Pages [sample_text] |})) []
  = (upload_html (Some (str "Invalid file type")), []).
Proof.
  apply (other_extensions_are_rejected keep_name
           {| filename := str "grades.pdf.exe"; body := Pages [sample_text] |} []).
  intros stem ext Hname (c1 & c2 & c3 & -> & H1 & _). cbn [filename] in Hname.
  apply (f_equal (@rev ascii)) in Hname. rewrite rev_app_distr in Hname.
  cbn in Hname. injection Hname as _ _ Hc1 _.
  destruct H1 as [-> | ->]; discriminate Hc1.
Defined.

Lemma no_records_pages texts :
  Forall no_records texts -> flat_map extract_assignments_and_grades texts = [].
Proof.
  intros H. induction H as [|t texts Ht H IH]; [reflexivity|].
  cbn [flat_map]. rewrite Ht, IH. reflexivity.
Qed.

(** X17: when the accepted file cannot be read, the answer is the upload
    page with the message of the exception; when none of its pages yields a
    record, the answer is "No grades found in the PDF".  In both cases no
    workbook is written: apart from the path of the PDF the folder is as it
    was. *)
Theorem failed_upload_leaves_no_workbook :
  forall secure_filename file fs,
    allowed_file (filename file) = Ok true ->
    let answer := upload_file secure_filename (POST (Some file)) fs in
    (forall message, body file = Unreadable message ->
       fst answer = upload_html (Some (str "Error processing file: " ++ message))
       /\ same_except [pdf_path_of secure_filename file] fs (snd answer))
    /\ (forall texts, body file = Pages texts -> Forall no_records texts ->
          fst answer = upload_html (Some (str "No grades found in the PDF"))
          /\ same_except [pdf_path_of secure_filename file] fs (snd answer)).
Proof.
  intros secure_filename file fs H answer. unfold answer.
  rewrite (upload_file_accepted _ _ _ H). cbv zeta.
  assert (Hsame : forall fs1,
            fs1 = save (pdf_path_of secure_filename file) (Upload (body file)) fs ->
            same_except [pdf_path_of secure_filename file] fs
              (if os_path_exists (pdf_path_of secure_filename file) fs1
               then os_remove (pdf_path_of secure_filename file) fs1 else fs1)).
  { intros fs1 -> q Hq.
    assert (Hq1 : q <> pdf_path_of secure_filename file)
      by (intros E; apply Hq; left; symmetry; exact E).
    rewrite (cleanup_keeps _ _ _ Hq1). apply read_save_other. exact Hq1. }
  split.
  - intros message Hbody. rewrite (process_unreadable _ _ _ _ Hbody). cbn [fst snd].
    split; [reflexivity|apply Hsame; reflexivity].
  - intros texts Hbody Hnone. rewrite (process_pages _ _ _ _ Hbody). cbv zeta.
    assert (E : extract_assignments_and_grades (text_of_pages texts) = []).
    { rewrite records_of_text_of_pages. apply no_records_pages. exact Hnone. }
    rewrite E. cbn [fst snd]. split; [reflexivity|apply Hsame; reflexivity].
Qed.

Lemma failed_upload_leaves_no_workbook_witness :
  fst (upload_file keep_name
         (POST (Some {| filename := str "notes.PDF";
                        body := Pages [str "Grades - 18/20"; str "no marks"] |}))
         [(str "uploads/old.xlsx", Workbook [])])
  = upload_html (Some (str "No grades found in the PDF"))
  /\ same_except [str "uploads/notes.PDF"]
       [(str "uploads/old.xlsx", Workbook [])]
       (snd (upload_file keep_name
         (POST (Some {| filename := str "notes.PDF";
                        body := Pages [str "Grades - 18/20"; str "no marks"] |}))
         [(str "uploads/old.xlsx", Workbook [])])).
Proof.
  apply (proj2 (failed_upload_leaves_no_workbook keep_name
           {| filename := str "notes.PDF";
              body := Pages [str "Grades - 18/20"; str "no marks"] |}
           [(str "uploads/old.xlsx", Workbook [])] eq_refl)
         [str "Grades - 18/20"; str "no marks"] eq_refl).
  repeat constructor.
Defined.



Lemma process_store file filename fs :
  snd (process file filename fs) = fs
  \/ exists df,
       snd (process file filename fs)
       = save (os_path_join UPLOAD_FOLDER (excel_filename_of filename)) (Workbook df) fs.
Proof.
  unfold process.
  destruct (extract_text_from_scanned_pdf (body file)) as [text|message];
    [|left; reflexivity].
  destruct (extract_assignments_and_grades text) as [|r df]; [left; reflexivity|].
  right. exists (r :: df).
  destruct (calculate_overall_grade (r :: df)); reflexivity.
Qed.

(** An uploaded document found in the folder after a request was there
    before it. *)
Lemma upload_file_stores_no_upload secure_filename req fs q doc :
  read q (snd (upload_file secure_filename req fs)) = Some (Upload doc) ->
  read q fs = Some (Upload doc).
Proof.
  destruct req as [|[file|]]; [exact (fun H => H)| |exact (fun H => H)].
  destruct (allowed_file_returns (filename file)) as [[|] Hb].
  - rewrite (upload_file_accepted _ _ _ Hb). cbv zeta. cbn [snd].
    set (pdf_path := pdf_path_of secure_filename file).
    destruct (list_eq_dec ascii_dec q pdf_path) as [->|Hq].
    + pose proof (cleanup_removes pdf_path
                    (snd (process file (secure_filename (filename file))
                            (save pdf_path (Upload (body file)) fs)))) as Hgone.
      unfold os_path_exists in Hgone at 1.
      destruct (read pdf_path _); [discriminate Hgone|discriminate].
    + rewrite (cleanup_keeps _ _ _ Hq).
      destruct (process_store file (secure_filename (filename file))
                  (save pdf_path (Upload (body file)) fs)) as [-> | [df ->]].
      * rewrite (read_save_other _ _ _ _ Hq). exact (fun H => H).
      * destruct (list_eq_dec ascii_dec q
                    (os_path_join UPLOAD_FOLDER
                       (excel_filename_of (secure_filename (filename file)))))
          as [->|Hx].
        -- rewrite read_save_same. discriminate.
        -- rewrite (read_save_other _ _ _ _ Hx), (read_save_other _ _ _ _ Hq).
           exact (fun H => H).
  - unfold upload_file. rewrite Hb. destruct (filename file); exact (fun H => H).
Qed.

(** X19: a request to [/] never leaves an uploaded document in a folder
    that held none, so that [download_file] afterwards sends workbooks
    only. *)
Theorem uploads_are_never_served :
  forall secure_filename req fs,
    holds_no_upload fs ->
    let fs' := snd (upload_file secure_filename req fs) in
    holds_no_upload fs'
    /\ forall name c, download_file name fs' = send_file c -> exists df, c = Workbook df.
Proof.
  intros secure_filename req fs Hfs fs'.
  assert (Hfs' : holds_no_upload fs').
  { intros q doc H. apply (Hfs q doc).
    exact (upload_file_stores_no_upload _ _ _ _ _ H). }
  split; [exact Hfs'|].
  intros name c. unfold download_file.
  destruct (negb (endswith (str ".xlsx") name)); [discriminate|].
  destruct (read (os_path_join UPLOAD_FOLDER name) fs') as [c'|] eqn:E; [|discriminate].
  intros H. injection H as <-. destruct c' as [doc|df]; [|eauto].
  exfalso. exact (Hfs' _ _ E).
Qed.

Lemma uploads_are_never_served_witness :
  holds_no_upload (snd (upload_file keep_name (POST (Some sample_upload)) []))
  /\ forall name c,
       download_file name (snd (upload_file keep_name (POST (Some sample_upload)) []))
       = send_file c -> exists df, c = Workbook df.
Proof.
  apply (uploads_are_never_served keep_name (POST (Some sample_upload)) []).
  intros q doc. discriminate.
Defined.
